(** * The chain-RPC probers of big-blackbox-exporter: [prober/jsonrpc.go]

    A shallow embedding of the JSON-RPC prober: parameter coercion
    ([stringsToSlice]), the decimal normaliser
    ([resultToFloat64WithDecimals]) and the two revisions of
    [ProbeJSONRPC] found in [prober/jsonrpc.go], and the host that
    [ProbeBTCRPC] of [prober/btcrpc.go] derives from its target,
    followed by the properties the specification states about them and
    by further properties read off the code.

    Go strings are byte sequences; they are Rocq [string]s, whose
    characters are the 256 byte values.  [int64] and [big.Int] values are
    [Z]; [float64] and [big.Float] values are [spec_float]s of the
    Standard Library, rounded by its IEEE 754 operations. *)

From Stdlib Require Import ZArith NArith String Ascii List Bool Lia.
From Stdlib Require Import Floats.SpecFloat.
From stdpp Require Import base option strings gmap.

Import ListNotations.
Local Open Scope string_scope.
Local Open Scope Z_scope.

(** ** Go's [strings] package, on bytes *)

Module GoStrings.

Definition byte (c : ascii) : Z := Z.of_N (N_of_ascii c).

Definition between (lo hi : Z) (c : ascii) : bool :=
  (lo <=? byte c) && (byte c <=? hi).

(** [strings.Split(s, sep)] for a one-byte separator: every occurrence of
    [sep] ends a part, so the result has one part more than [s] has
    separators. *)
Fixpoint Split (s : string) (sep : ascii) : list string :=
  match s with
  | EmptyString => [EmptyString]
  | String c rest =>
      if Ascii.eqb c sep then EmptyString :: Split rest sep
      else match Split rest sep with
           | p :: ps => String c p :: ps
           | [] => [String c EmptyString]
           end
  end.

(** [strings.HasPrefix] and [strings.TrimPrefix]. *)
Fixpoint HasPrefix (s p : string) {struct p} : bool :=
  match p, s with
  | EmptyString, _ => true
  | String a p', String b s' => Ascii.eqb a b && HasPrefix s' p'
  | String _ _, EmptyString => false
  end.

Fixpoint dropBytes (n : nat) (s : string) : string :=
  match n, s with
  | S n', String _ s' => dropBytes n' s'
  | _, _ => s
  end.

Definition TrimPrefix (s p : string) : string :=
  if HasPrefix s p then dropBytes (String.length p) s else s.

(** The bytes [unicode.IsSpace] accepts below U+0080. *)
Definition asciiSpace (c : ascii) : bool :=
  between 9 13 c || (byte c =? 32).

(** The two-byte UTF-8 encodings of white space: U+0085 and U+00A0. *)
Definition space2 (c1 c2 : ascii) : bool :=
  (byte c1 =? 194) && ((byte c2 =? 133) || (byte c2 =? 160)).

(** The three-byte encodings: U+1680, U+2000..U+200A, U+2028, U+2029,
    U+202F, U+205F and U+3000. *)
Definition space3 (c1 c2 c3 : ascii) : bool :=
  ((byte c1 =? 225) && (byte c2 =? 154) && (byte c3 =? 128))
  || ((byte c1 =? 226) && (byte c2 =? 128)
      && (between 128 138 c3 || between 168 169 c3 || (byte c3 =? 175)))
  || ((byte c1 =? 226) && (byte c2 =? 129) && (byte c3 =? 159))
  || ((byte c1 =? 227) && (byte c2 =? 128) && (byte c3 =? 128)).

(** [strings.TrimLeftFunc(s, unicode.IsSpace)]: runes are decoded from the
    front; a byte that does not start a white-space rune stops the scan. *)
Fixpoint TrimLeftSpace (s : string) : string :=
  match s with
  | EmptyString => s
  | String c1 r1 =>
      if asciiSpace c1 then TrimLeftSpace r1
      else match r1 with
           | String c2 r2 =>
               if space2 c1 c2 then TrimLeftSpace r2
               else match r2 with
                    | String c3 r3 =>
                        if space3 c1 c2 c3 then TrimLeftSpace r3 else s
                    | EmptyString => s
                    end
           | EmptyString => s
           end
  end.

Fixpoint revOnto (s acc : string) : string :=
  match s with
  | EmptyString => acc
  | String c r => revOnto r (String c acc)
  end.

Definition rev (s : string) : string := revOnto s EmptyString.

(** The same scan from the back, on the reversed bytes: the last rune is
    a white-space rune exactly when the string ends in its encoding. *)
Fixpoint TrimLeftSpaceRev (s : string) : string :=
  match s with
  | EmptyString => s
  | String c1 r1 =>
      if asciiSpace c1 then TrimLeftSpaceRev r1
      else match r1 with
           | String c2 r2 =>
               if space2 c2 c1 then TrimLeftSpaceRev r2
               else match r2 with
                    | String c3 r3 =>
                        if space3 c3 c2 c1 then TrimLeftSpaceRev r3 else s
                    | EmptyString => s
                    end
           | EmptyString => s
           end
  end.

Definition TrimRightSpace (s : string) : string :=
  rev (TrimLeftSpaceRev (rev s)).

(** [strings.TrimSpace]. *)
Definition TrimSpace (s : string) : string :=
  TrimRightSpace (TrimLeftSpace s).

End GoStrings.

(** ** Go's [strconv] package *)

Module strconv.

Import GoStrings.

Inductive NumError := ErrSyntax | ErrRange.

Definition maxUint64 : Z := 2 ^ 64 - 1.

Definition isDigit (c : ascii) : bool := between 48 57 c.

(** The digit loop of [ParseUint(s, 10, 64)]: [n] is the value read so
    far.  A byte that is no decimal digit is a syntax error; a value that
    leaves [uint64] is a range error, reported where it is met. *)
Fixpoint parseUintLoop (s : string) (n : Z) : Z * option NumError :=
  match s with
  | EmptyString => (n, None)
  | String c r =>
      if isDigit c then
        if maxUint64 / 10 + 1 <=? n then (maxUint64, Some ErrRange)
        else
          let n1 := n * 10 + (byte c - 48) in
          if maxUint64 <? n1 then (maxUint64, Some ErrRange)
          else parseUintLoop r n1
      else (0, Some ErrSyntax)
  end.

Definition ParseUint (s : string) : Z * option NumError :=
  match s with
  | EmptyString => (0, Some ErrSyntax)
  | _ => parseUintLoop s 0
  end.

(** [strconv.ParseInt(s, 10, 64)]: the value and the error.  On a range
    error the value is the nearest bound of [int64]. *)
Definition ParseInt (s : string) : Z * option NumError :=
  match s with
  | EmptyString => (0, Some ErrSyntax)
  | String c r =>
      let neg := Ascii.eqb c "-" in
      let s' := if Ascii.eqb c "+" || neg then r else s in
      match ParseUint s' with
      | (_, Some ErrSyntax) => (0, Some ErrSyntax)
      | (un, _) =>
          if negb neg && (2 ^ 63 <=? un) then (2 ^ 63 - 1, Some ErrRange)
          else if neg && (2 ^ 63 <? un) then (- 2 ^ 63, Some ErrRange)
          else (if neg then - un else un, None)
      end
  end.

(** [strconv.ParseBool]. *)
Definition ParseBool (s : string) : option bool :=
  if existsb (String.eqb s) ["1"; "t"; "T"; "TRUE"; "true"; "True"] then Some true
  else if existsb (String.eqb s) ["0"; "f"; "F"; "FALSE"; "false"; "False"] then Some false
  else None.

End strconv.

(** ** Parameter coercion *)

(** The dynamic values of the positional arguments of a call, the
    elements of a [[]interface{}]: [stringsToSlice] produces the first
    three; [VMap] is the call object of [parseJSONRPCParams]. *)
Inductive value :=
  | VInt (n : Z)
  | VBool (b : bool)
  | VString (s : string)
  | VMap (fields : list (string * string)).

(** The body of the loop of [stringsToSlice], for one part. *)
Definition coercePart (part : string) : value :=
  let part := GoStrings.TrimSpace part in
  match strconv.ParseInt part with
  | (intVal, None) => VInt intVal
  | (_, Some _) =>
      match strconv.ParseBool part with
      | Some boolVal => VBool boolVal
      | None => VString part
      end
  end.

Definition stringsToSlice (s : string) : list value :=
  if String.eqb s "" then []
  else map coercePart (GoStrings.Split s ",").

(** [strings.Count(s, string(c))]. *)
Fixpoint countByte (c : ascii) (s : string) : nat :=
  match s with
  | EmptyString => 0
  | String c' r => (if Ascii.eqb c' c then 1 else 0) + countByte c r
  end.

(** The first byte, or the last, is a white-space byte of ASCII. *)
Definition startsWithSpace (s : string) : bool :=
  match s with
  | String c _ => GoStrings.asciiSpace c
  | EmptyString => false
  end.

Definition endsWithSpace (s : string) : bool := startsWithSpace (GoStrings.rev s).

(** ** Go's [math] and [math/big] packages *)

Abbreviation float64 := spec_float.

Module math.

Definition f64mul : float64 -> float64 -> float64 := SFmul 53 1024.
Definition f64div : float64 -> float64 -> float64 := SFdiv 53 1024.

(** A decimal floating-point literal [1e+k] of the Go source, [k >= 0]:
    the compiler converts the exact constant to the nearest [float64]. *)
Definition lit_1e (k : Z) : float64 := binary_normalize 53 1024 (10 ^ k) 0 false.

(** The literal [1e-k], [k >= 0]: the nearest [float64] to [1/10^k]. *)
Definition lit_1e_neg (k : Z) : float64 :=
  f64div (S754_finite false 1 0) (S754_finite false (Z.to_pos (10 ^ k)) 0).

(** [pow10tab[i]], [pow10postab32[i]] and [pow10negtab32[i]]. *)
Definition pow10tab (i : Z) : float64 := lit_1e i.
Definition pow10postab32 (i : Z) : float64 := lit_1e (32 * i).
Definition pow10negtab32 (i : Z) : float64 := lit_1e_neg (32 * i).

(** [math.Pow10(n)]. *)
Definition Pow10 (n : Z) : float64 :=
  if (0 <=? n) && (n <=? 308) then
    f64mul (pow10postab32 (n / 32)) (pow10tab (n mod 32))
  else if (-323 <=? n) && (n <=? 0) then
    f64div (pow10negtab32 ((- n) / 32)) (pow10tab ((- n) mod 32))
  else if 0 <? n then S754_infinity false
  else S754_zero false.

End math.

Module big.

Import GoStrings.

(** The value of the byte [ch] as a digit, as [nat.scan] converts it; a
    byte that is no digit or letter is larger than every base. *)
Definition digitVal (ch : ascii) : Z :=
  if between 48 57 ch then byte ch - 48
  else if between 97 122 ch then byte ch - 97 + 10
  else if between 65 90 ch then byte ch - 65 + 10
  else 63.

(** The digit loop of [nat.scan]: digits are collected while they are
    below the base; the first other byte ends the number. *)
Fixpoint scanDigits (b : Z) (s : string) (acc : Z) (count : nat)
  : Z * nat * string :=
  match s with
  | EmptyString => (acc, count, s)
  | String ch r =>
      if digitVal ch <? b then scanDigits b r (acc * b + digitVal ch) (S count)
      else (acc, count, s)
  end.

(** [scanSign]: an optional sign byte. *)
Definition scanSign (s : string) : bool * string :=
  match s with
  | String c r =>
      if Ascii.eqb c "-" then (true, r)
      else if Ascii.eqb c "+" then (false, r)
      else (false, s)
  | EmptyString => (false, s)
  end.

(** [new(big.Int).SetString(s, base)] for a base of 10 or 16: the value
    held by the receiver afterwards, and whether the call succeeded.
    [Int.scan] stores the digits it has read in the receiver before
    [SetString] finds out that bytes are left over, so that after a
    failed call the receiver holds the number read up to there (zero when
    there was no digit); [resultToFloat64WithDecimals] drops the
    success flag and uses the receiver. *)
Definition SetString (s : string) (base : Z) : Z * bool :=
  match s with
  | EmptyString => (0, false)
  | _ =>
      let '(neg, s1) := scanSign s in
      let '(abs, count, rest) := scanDigits base s1 0 0%nat in
      match count with
      | O => (0, false)
      | _ => (if neg then - abs else abs, String.eqb rest "")
      end
  end.

(** [x.BitLen()]. *)
Definition BitLen (x : Z) : Z :=
  match x with
  | Z0 => 0
  | Zpos p | Zneg p => Zpos (digits2_pos p)
  end.

(** A [big.Float]: its precision in bits and its value.  The exponent of
    a [big.Float] has 32 bits. *)
Record Float := { prec : Z; val : spec_float }.

Definition MaxExp : Z := 2 ^ 31 - 1.

(** [new(big.Float).SetInt(x)]: the precision becomes the larger of the
    bit length of [x] and 64, so that the value is exact. *)
Definition SetInt (x : Z) : Float :=
  {| prec := Z.max (BitLen x) 64;
     val := match x with
            | Z0 => S754_zero false
            | Zpos p => S754_finite false p 0
            | Zneg p => S754_finite true p 0
            end |}.

(** [big.NewFloat(x)] for an [x] that is not a NaN: precision 53. *)
Definition NewFloat (x : float64) : Float := {| prec := 53; val := x |}.

Definition sign (x : spec_float) : bool :=
  match x with
  | S754_zero s | S754_infinity s | S754_finite s _ _ => s
  | S754_nan => false
  end.

(** [new(big.Float).Quo(x, y)]: the quotient rounded to the larger of the
    two precisions, to nearest even.  [None] is the panic with [ErrNaN]
    that [Quo] raises for 0/0 and Inf/Inf. *)
Definition Quo (x y : Float) : option Float :=
  let p := Z.max (prec x) (prec y) in
  let neg := xorb (sign (val x)) (sign (val y)) in
  match val x, val y with
  | S754_finite _ _ _, S754_finite _ _ _ =>
      Some {| prec := p; val := SFdiv p MaxExp (val x) (val y) |}
  | S754_zero _, S754_zero _ | S754_infinity _, S754_infinity _ => None
  | S754_zero _, _ | _, S754_infinity _ =>
      Some {| prec := p; val := S754_zero neg |}
  | _, _ => Some {| prec := p; val := S754_infinity neg |}
  end.

(** [x.Float64()]: the nearest [float64], to nearest even, with the
    subnormal numbers and the infinities of [float64]. *)
Definition Float64 (x : Float) : float64 :=
  match val x with
  | S754_finite s m e => binary_round 53 1024 s m e
  | v => v
  end.

End big.

(** ** The decimal normaliser *)

(** [new(big.Float).Quo(new(big.Float).SetInt(x), big.NewFloat(y)).Float64()];
    [None] is a panic. *)
Definition quoFloat64 (x : Z) (y : float64) : option float64 :=
  f ← big.Quo (big.SetInt x) (big.NewFloat y);
  Some (big.Float64 f).

(** [resultToFloat64WithDecimals]; [None] is a panic. *)
Definition resultToFloat64WithDecimals (result : string) (decimals : Z)
  : option float64 :=
  let resultInt :=
    if GoStrings.HasPrefix result "0x"
    then fst (big.SetString (GoStrings.TrimPrefix result "0x") 16)
    else fst (big.SetString result 10) in
  quoFloat64 resultInt (math.Pow10 decimals).

(** The integer that [resultToFloat64WithDecimals] divides: what
    [SetString] leaves in the receiver, in base 16 after the prefix [0x]
    and in base 10 otherwise. *)
Definition resultInt (result : string) : Z :=
  if GoStrings.HasPrefix result "0x"
  then fst (big.SetString (GoStrings.TrimPrefix result "0x") 16)
  else fst (big.SetString result 10).

Definition isZero (f : float64) : bool :=
  match f with S754_zero _ => true | _ => false end.

Definition positiveFinite (f : float64) : bool :=
  match f with S754_finite false _ _ => true | _ => false end.

(** ** Decoded JSON and the libraries around the prober *)

(** What [encoding/json] decodes into an [interface{}]; the fields of an
    object are kept in the order of their keys, as [fmt] prints a map. *)
#[warnings="-register-all"]
Inductive json :=
  | JNull
  | JBool (b : bool)
  | JNumber (f : float64)
  | JString (s : string)
  | JArray (elems : list json)
  | JObject (fields : list (string * json)).

(** The [data] argument of [jmespath.Search]: a decoded JSON value, or
    the [*string] that the first revision hands over in batch mode. *)
Inductive searchData :=
  | OfJSON (j : json)
  | OfStringPtr (s : string).

(** The outcome of a call into a library that can fail or panic. *)
Inductive libResult (A : Type) :=
  | LOk (a : A)
  | LErr
  | LPanic.
Arguments LOk {A} a.
Arguments LErr {A}.
Arguments LPanic {A}.

(** The functions of other packages, and [parseJSONRPCParams], that the
    prober calls and that are not part of [prober/jsonrpc.go]. *)
Record Libraries := {
  (** [ethclient.Dial(target)] returned no error *)
  ethclient_Dial : string -> bool;
  (** [jmespath.Search(expression, data)] *)
  jmespath_Search : string -> searchData -> libResult json;
  (** [json.Marshal] of a decoded value *)
  json_Marshal : json -> option string;
  (** the text [fmt] prints for a [float64] under [%v] *)
  fmt_float64 : float64 -> string;
  (** [parseJSONRPCParams(text)], [None] for an error *)
  parseJSONRPCParams : string -> option (list value)
}.

(** One request on the wire. *)
Inductive Request :=
  | Single (method : string) (args : list value)
  | Batch (elems : list (string * list value)).

(** The RPC endpoint behind [eth.Client()].  [Call] answers one call with
    its raw result, or fails; [BatchCall] fails as a whole, or answers
    each element with its raw result or with that element's error. *)
Record Endpoint := {
  Call : string -> list value -> option json;
  BatchCall : list (string * list value) -> option (list (option json))
}.

Module fmt.

Definition join (sep : string) (l : list string) : string :=
  match l with
  | [] => ""
  | x :: xs => fold_left (fun acc y => acc +:+ sep +:+ y) xs x
  end.

(** [fmt.Sprintf("%v", v)] for a decoded JSON value. *)
Fixpoint Sprint (fmtFloat : float64 -> string) (v : json) : string :=
  match v with
  | JNull => "<nil>"
  | JBool true => "true"
  | JBool false => "false"
  | JNumber f => fmtFloat f
  | JString s => s
  | JArray elems => "[" +:+ join " " (map (Sprint fmtFloat) elems) +:+ "]"
  | JObject fields =>
      "map[" +:+ join " " (map (fun kv => fst kv +:+ ":" +:+ Sprint fmtFloat (snd kv)) fields) +:+ "]"
  end.

End fmt.

Module utf8.

Import GoStrings.

Definition cont (c : ascii) : bool := between 128 191 c.

Definition lead3 (c1 c2 : ascii) : bool :=
  ((byte c1 =? 224) && between 160 191 c2)
  || (between 225 236 c1 && cont c2)
  || ((byte c1 =? 237) && between 128 159 c2)
  || (between 238 239 c1 && cont c2).

Definition lead4 (c1 c2 : ascii) : bool :=
  ((byte c1 =? 240) && between 144 191 c2)
  || (between 241 243 c1 && cont c2)
  || ((byte c1 =? 244) && between 128 143 c2).

(** [utf8.ValidString]. *)
Fixpoint ValidString (s : string) : bool :=
  match s with
  | EmptyString => true
  | String c1 r1 =>
      if byte c1 <? 128 then ValidString r1
      else match r1 with
           | String c2 r2 =>
               if between 194 223 c1 && cont c2 then ValidString r2
               else match r2 with
                    | String c3 r3 =>
                        if lead3 c1 c2 && cont c3 then ValidString r3
                        else match r3 with
                             | String c4 r4 =>
                                 lead4 c1 c2 && cont c3 && cont c4 && ValidString r4
                             | EmptyString => false
                             end
                    | EmptyString => false
                    end
           | EmptyString => false
           end
  end.

End utf8.

(** ** The metrics registry *)

(** A [prometheus.Registry]: the gauge vectors registered in it, by metric
    name, each with the value of every label tuple that was set. *)
Abbreviation Registry := (gmap string (gmap (list string) float64)).

(** [url.Values]. *)
Abbreviation Values := (gmap string (list string)).

(** [params[key]]: the values of a key, none when it is absent. *)
Definition values (params : Values) (key : string) : list string :=
  default [] (params !! key).

(** [params.Get(key)]: the first value of a key, or the empty string. *)
Definition Get (params : Values) (key : string) : string :=
  match values params key with
  | v :: _ => v
  | [] => ""
  end.

(** ** The prober's control flow *)

(** What a probe leaves behind: the registry and the requests sent. *)
Record World := { registry : Registry; wire : list Request }.

(** A statement either goes on with a value, returns from
    [ProbeJSONRPC] with a success flag, or panics. *)
Inductive step (A : Type) :=
  | Next (a : A)
  | Return (success : bool)
  | Panicked.
Arguments Next {A} a.
Arguments Return {A} success.
Arguments Panicked {A}.

Definition prober (A : Type) : Type := World -> step A * World.

Definition pure {A} (a : A) : prober A := fun w => (Next a, w).

Definition bind {A B} (c : prober A) (k : A -> prober B) : prober B :=
  fun w =>
    match c w with
    | (Next a, w') => k a w'
    | (Return b, w') => (Return b, w')
    | (Panicked, w') => (Panicked, w')
    end.

#[global] Instance prober_ret : MRet prober := @pure.
#[global] Instance prober_bind : MBind prober := fun A B k c => bind c k.

(** [return b]. *)
Definition ret {A} (b : bool) : prober A := fun w => (Return b, w).

Definition panic {A} : prober A := fun w => (Panicked, w).

(** [if err != nil { return false }] around a fallible call. *)
Definition orFail {A} (r : option A) : prober A :=
  match r with
  | Some a => pure a
  | None => ret false
  end.

(** [l[i]], with the run-time panic of an index out of range. *)
Definition index (l : list string) (i : nat) : prober string :=
  match l !! i with
  | Some x => pure x
  | None => panic
  end.

(** [for i, x := range l { body }], from index [i] on. *)
Fixpoint forRange {A} (body : nat -> A -> prober unit) (i : nat) (l : list A)
  : prober unit :=
  match l with
  | [] => pure tt
  | x :: l' => body i x ;; forRange body (S i) l'
  end.

(** [registry.MustRegister] of a gauge vector of the given name: it
    panics when the name is taken. *)
Definition MustRegister (name : string) : prober unit :=
  fun w =>
    match registry w !! name with
    | Some _ => (Panicked, w)
    | None => (Next tt, {| registry := <[name := ∅]> (registry w); wire := wire w |})
    end.

(** [vec.WithLabelValues(lvs...).Set(v)]: [WithLabelValues] panics on a
    label value that is not valid UTF-8. *)
Definition gaugeSet (name : string) (lvs : list string) (v : float64) : prober unit :=
  fun w =>
    if forallb utf8.ValidString lvs then
      (Next tt,
       {| registry := <[name := <[lvs := v]> (default ∅ (registry w !! name))]> (registry w);
          wire := wire w |})
    else (Panicked, w).

(** [eth.Client().Call(&result, m, args...)]. *)
Definition call (ep : Endpoint) (m : string) (args : list value) : prober json :=
  fun w =>
    let w' := {| registry := registry w; wire := wire w ++ [Single m args] |} in
    match Call ep m args with
    | Some j => (Next j, w')
    | None => (Return false, w')
    end.

(** [eth.Client().BatchCall(batch)]. *)
Definition batchCall (ep : Endpoint) (elems : list (string * list value))
  : prober (list (option json)) :=
  fun w =>
    let w' := {| registry := registry w; wire := wire w ++ [Batch elems] |} in
    match BatchCall ep elems with
    | Some rs => (Next rs, w')
    | None => (Return false, w')
    end.

(** [jmespath.Search] with the [if err != nil { return false }] after it. *)
Definition search (libs : Libraries) (expr : string) (data : searchData) : prober json :=
  match jmespath_Search libs expr data with
  | LOk sr => pure sr
  | LErr => ret false
  | LPanic => panic
  end.

(** The prologue that both revisions share: the scheme, the dial and the
    two checks of the columns. *)
Definition withScheme (target : string) : string :=
  if negb (GoStrings.HasPrefix target "http://") && negb (GoStrings.HasPrefix target "https://")
  then "http://" +:+ target else target.

Definition isEmpty (l : list string) : bool := (length l =? 0)%nat.
Definition sameLen (l1 l2 : list string) : bool := (length l1 =? length l2)%nat.

Definition checkColumns (methods args decimals tags resultJMESPath : list string)
  : prober unit :=
  if isEmpty methods || isEmpty args || isEmpty decimals || isEmpty tags
     || isEmpty resultJMESPath
  then ret false
  else if negb (sameLen methods args) || negb (sameLen methods decimals)
          || negb (sameLen methods tags) || negb (sameLen methods resultJMESPath)
  then ret false
  else pure tt.

(** The end of the function: the value the caller sees and the world. *)
Inductive outcome := Returned (success : bool) | Panic.

Definition run (body : prober unit) (reg : Registry) : outcome * World :=
  match body {| registry := reg; wire := [] |} with
  | (Next _, w) => (Returned true, w)
  | (Return b, w) => (Returned b, w)
  | (Panicked, w) => (Panic, w)
  end.

(** A prober that never returns [true] on its own: every [return] in it
    is a [return false]. *)
Definition failsOnly {A} (c : prober A) : Prop :=
  forall w b w', c w = (Return b, w') -> b = false.

(** A prober that does not get to its end: it returns early or panics. *)
Definition noNext {A} (c : prober A) : Prop :=
  forall w u w', c w <> (Next u, w').



(** ** [ProbeJSONRPC], first revision

    Results are decoded into an [interface{}] (one call at a time) or
    into a [string] (batch); arguments come from [stringsToSlice]. *)

Module Rev1.

Section Probe.

Variable libs : Libraries.
Variable ep : Endpoint.
Variable target : string.
Variable params : Values.

Let methods := values params "method".
Let args := values params "arg".
Let decimals := values params "decimal".
Let tags := values params "tag".
Let resultJMESPath := values params "resultJMESPath".

(** The normaliser and the gauge of descriptor [i]; [target] is the
    target with its scheme. *)
Definition setGauge (target : string) (i : nat) (r : string) (decimalsInt : Z)
  : prober unit :=
  match resultToFloat64WithDecimals r decimalsInt with
  | None => panic
  | Some value =>
      mi ← index methods i;
      ai ← index args i;
      ti ← index tags i;
      gaugeSet "probe_jsonrpc" [target; mi; ai; ti] value
  end.

(** The body of the loop taken when [disableBatch] is set. *)
Definition callBody (target : string) (i : nat) (m : string) : prober unit :=
  a ← index args i;
  result ← call ep m (stringsToSlice a);
  p ← index resultJMESPath i;
  r ← (if negb (String.eqb p "") then
         sr ← search libs p (OfJSON result);
         mret (fmt.Sprint (fmt_float64 libs) sr)
       else orFail (json_Marshal libs result));
  d ← index decimals i;
  setGauge target i r (fst (strconv.ParseInt d)).

(** The first loop of the batch branch: one element per method. *)
Fixpoint buildBatch (i : nat) (ms : list string) : prober (list (string * list value)) :=
  match ms with
  | [] => mret []
  | m :: ms' =>
      a ← index args i;
      rest ← buildBatch (S i) ms';
      mret ((m, stringsToSlice a) :: rest)
  end.

(** What [BatchCall] leaves in the [string] that [Result] points to: the
    content of a JSON string; the empty string when the element failed,
    when its result is [null] or when it is no string. *)
Definition decodedString (r : option json) : string :=
  match r with
  | Some (JString s) => s
  | _ => ""
  end.

(** The body of the second loop of the batch branch. *)
Definition batchBody (target : string) (results : list (option json))
  (i : nat) (e : string * list value) : prober unit :=
  d ← index decimals i;
  p ← index resultJMESPath i;
  let eResult := decodedString (mjoin (results !! i)) in
  r ← (if negb (String.eqb p "") then
         sr ← search libs p (OfStringPtr eResult);
         mret (fmt.Sprint (fmt_float64 libs) sr)
       else mret eResult);
  setGauge target i r (fst (strconv.ParseInt d)).

Definition body : prober unit :=
  let target := withScheme target in
  (if ethclient_Dial libs target then mret tt else ret false);;
  checkColumns methods args decimals tags resultJMESPath;;
  if String.eqb (Get params "module") "jsonrpc" then
    MustRegister "probe_jsonrpc";;
    if String.eqb (Get params "disableBatch") "true" then
      forRange (callBody target) 0 methods
    else
      batch ← buildBatch 0 methods;
      results ← batchCall ep batch;
      forRange (batchBody target results) 0 batch
  else mret tt.

End Probe.

Definition ProbeJSONRPC (libs : Libraries) (ep : Endpoint) (target : string)
  (params : Values) (reg : Registry) : outcome * World :=
  run (body libs ep target params) reg.

End Rev1.

(** ** [ProbeJSONRPC], second revision

    Results are kept as [json.RawMessage] and decoded by the prober;
    arguments come from [parseJSONRPCParams]; the [params] label is the
    trimmed argument text.  A raw message is represented by the value it
    decodes to, and an empty one, left behind by a failed batch element,
    by [None]. *)

Module Rev2.

Section Probe.

Variable libs : Libraries.
Variable ep : Endpoint.
Variable target : string.
Variable params : Values.

Let methods := values params "method".
Let args := values params "arg".
Let decimals := values params "decimal".
Let tags := values params "tag".
Let resultJMESPath := values params "resultJMESPath".

(** [json.Unmarshal(rawMsg, &r)] for [var r string], with the
    [return false] on its error: [null] leaves [r] empty. *)
Definition unmarshalString (rawMsg : option json) : prober string :=
  match rawMsg with
  | Some (JString s) => mret s
  | Some JNull => mret ""
  | _ => ret false
  end.

(** The string [r] of one descriptor: the extraction expression [p]
    applied to the raw result [rawMsg]. *)
Definition resultString (p : string) (rawMsg : option json) : prober string :=
  if negb (String.eqb (GoStrings.TrimSpace p) "") then
    jsonData ← orFail rawMsg;
    sr ← search libs p (OfJSON jsonData);
    mret (fmt.Sprint (fmt_float64 libs) sr)
  else unmarshalString rawMsg.

Definition setGauge (target : string) (i : nat) (r : string) (decimalsInt : Z)
  : prober unit :=
  match resultToFloat64WithDecimals r decimalsInt with
  | None => panic
  | Some value =>
      mi ← index methods i;
      ai ← index args i;
      ti ← index tags i;
      gaugeSet "probe_jsonrpc" [target; mi; GoStrings.TrimSpace ai; ti] value
  end.

(** The body of the loop taken when [disableBatch] is set. *)
Definition callBody (target : string) (i : nat) (m : string) : prober unit :=
  a ← index args i;
  argsSlice ← orFail (parseJSONRPCParams libs a);
  result ← call ep m argsSlice;
  p ← index resultJMESPath i;
  r ← resultString p (Some result);
  d ← index decimals i;
  setGauge target i r (fst (strconv.ParseInt d)).

(** The first loop of the batch branch. *)
Fixpoint buildBatch (i : nat) (ms : list string) : prober (list (string * list value)) :=
  match ms with
  | [] => mret []
  | m :: ms' =>
      a ← index args i;
      argsSlice ← orFail (parseJSONRPCParams libs a);
      rest ← buildBatch (S i) ms';
      mret ((m, argsSlice) :: rest)
  end.

(** The body of the second loop of the batch branch. *)
Definition batchBody (target : string) (results : list (option json))
  (i : nat) (e : string * list value) : prober unit :=
  d ← index decimals i;
  p ← index resultJMESPath i;
  r ← resultString p (mjoin (results !! i));
  setGauge target i r (fst (strconv.ParseInt d)).

Definition body : prober unit :=
  let target := withScheme target in
  (if ethclient_Dial libs target then mret tt else ret false);;
  checkColumns methods args decimals tags resultJMESPath;;
  if String.eqb (Get params "module") "jsonrpc" then
    MustRegister "probe_jsonrpc";;
    if String.eqb (Get params "disableBatch") "true" then
      forRange (callBody target) 0 methods
    else
      batch ← buildBatch 0 methods;
      results ← batchCall ep batch;
      forRange (batchBody target results) 0 batch
  else mret tt.

End Probe.

Definition ProbeJSONRPC (libs : Libraries) (ep : Endpoint) (target : string)
  (params : Values) (reg : Registry) : outcome * World :=
  run (body libs ep target params) reg.

End Rev2.


(** ** What a probe changes *)

(** Every run of [c] relates the world before to the world after by [R],
    however it ends. *)
Definition preserves {A} (R : World -> World -> Prop) (c : prober A) : Prop :=
  forall w s w', c w = (s, w') -> R w w'.

(** A run of [c] that gets to its end leaves a world in [P]. *)
Definition ensures {A} (P : World -> Prop) (c : prober A) : Prop :=
  forall w a w', c w = (Next a, w') -> P w'.

(** Every metric but [probe_jsonrpc] is as it was. *)
Definition sameOthers (w w' : World) : Prop :=
  forall name, name <> "probe_jsonrpc" -> registry w' !! name = registry w !! name.

(** The requests sent are as they were. *)
Definition sameWire (w w' : World) : Prop := wire w' = wire w.

(** The gauge of the label values [lvs] of [probe_jsonrpc] has a value. *)
Definition hasGauge (lvs : list string) (w : World) : Prop :=
  exists vec v, registry w !! "probe_jsonrpc" = Some vec /\ vec !! lvs = Some v.

(** No gauge is lost. *)
Definition keepsGauges (w w' : World) : Prop :=
  forall lvs, hasGauge lvs w -> hasGauge lvs w'.

(** The method of a request that is a single call. *)
Definition singleMethod (r : Request) : option string :=
  match r with
  | Single m _ => Some m
  | Batch _ => None
  end.


(** The label values of descriptor [i], with the argument as [f] makes
    it a label. *)
Definition labelsAt (f : string -> string) (params : Values) (target : string)
  (i : nat) (lvs : list string) : Prop :=
  exists m a t,
    values params "method" !! i = Some m
    /\ values params "arg" !! i = Some a
    /\ values params "tag" !! i = Some t
    /\ lvs = [target; m; f a; t].

(** ** [ProbeBTCRPC]: the host

    The first statements of [ProbeBTCRPC] in [prober/btcrpc.go], which
    derive the host from the target.  The rest of the function refers to
    names that the file does not define and is not modelled. *)

Module BTC.

Import GoStrings.

(** [strings.IndexByte(s, c) >= 0]. *)
Fixpoint containsByte (s : string) (c : ascii) : bool :=
  match s with
  | EmptyString => false
  | String c' r => Ascii.eqb c' c || containsByte r c
  end.

(** [strings.TrimLeft(s, cutset)] for a cutset of ASCII bytes: the
    leading bytes that occur in the cutset are removed. *)
Fixpoint TrimLeft (s cutset : string) : string :=
  match s with
  | EmptyString => s
  | String c r => if containsByte cutset c then TrimLeft r cutset else s
  end.

(** The [host] that [ProbeBTCRPC] derives from its target. *)
Definition host (target : string) : string :=
  if HasPrefix target "http://" then TrimLeft target "http://"
  else if HasPrefix target "https://" then TrimLeft target "https://"
  else target.

End BTC.

(** ** Stand-ins for the environment of a probe *)

(** The mock server of the tests: every call, alone or in a batch, is
    answered with the same canned result. *)
Definition cannedEndpoint (canned : json) : Endpoint :=
  {| Call := fun _ _ => Some canned;
     BatchCall := fun elems => Some (map (fun _ => Some canned) elems) |}.

Module Spec.

Import GoStrings.

(** The first occurrence of [sep] cuts [s] in two. *)
Fixpoint cut (sep : ascii) (s : string) : option (string * string) :=
  match s with
  | EmptyString => None
  | String c r =>
      if Ascii.eqb c sep then Some (EmptyString, r)
      else '(before, after) ← cut sep r; Some (String c before, after)
  end.

Fixpoint hasByte (c : ascii) (s : string) : bool :=
  match s with
  | EmptyString => false
  | String c' r => Ascii.eqb c c' || hasByte c r
  end.

(** One [name:value] field of the call object; a field without a colon
    has no matching structure. *)
Definition parseField (f : string) : option (string * string) := cut ":" f.

(** The trailing literals, as they are. *)
Definition literals (text : string) : list value :=
  if String.eqb text "" then [] else map VString (Split text ",").

(** Modelled from the spec: [parseJSONRPCParams] is called by the second
    revision of [ProbeJSONRPC] but its source is not in the repository
    files at hand.  Section 4.1 of the specification: the brace-delimited
    object becomes a mapping of field name to value, fields with an empty
    value being omitted; the remaining comma-separated literals are
    appended as they are; unbalanced braces and a field without structure
    are errors. *)
Definition parseJSONRPCParams (text : string) : option (list value) :=
  match text with
  | String "{" rest =>
      '(inner, after) ← cut "}" rest;
      fields ← mapM parseField (Split inner ",");
      let object := VMap (filter (fun kv => snd kv ≠ "") fields) in
      match after with
      | EmptyString => Some [object]
      | String "," lits =>
          if hasByte "{" lits || hasByte "}" lits then None
          else Some (object :: literals lits)
      | _ => None
      end
  | _ =>
      if hasByte "{" text || hasByte "}" text then None
      else Some (literals text)
  end.

(** The value of a string of decimal digits read after [acc]; [None]
    when a byte is no decimal digit. *)
Fixpoint digitsValue (s : string) (acc : Z) : option Z :=
  match s with
  | EmptyString => Some acc
  | String c r =>
      if between 48 57 c then digitsValue r (acc * 10 + (byte c - 48)) else None
  end.

(** A well-formed base-10 integer: one decimal digit or more. *)
Definition decimalValue (s : string) : option Z :=
  match s with
  | EmptyString => None
  | _ => digitsValue s 0
  end.

Definition hexDigit (c : ascii) : option Z :=
  if between 48 57 c then Some (byte c - 48)
  else if between 97 102 c then Some (byte c - 97 + 10)
  else if between 65 70 c then Some (byte c - 65 + 10)
  else None.

Fixpoint hexDigitsValue (s : string) (acc : Z) : option Z :=
  match s with
  | EmptyString => Some acc
  | String c r => d ← hexDigit c; hexDigitsValue r (acc * 16 + d)
  end.

(** A well-formed base-16 integer, without its prefix. *)
Definition hexValue (s : string) : option Z :=
  match s with
  | EmptyString => None
  | _ => hexDigitsValue s 0
  end.

(** A base-10 signed integer that fits [int64]: an optional sign and one
    decimal digit or more. *)
Definition intLiteral (s : string) : option Z :=
  match s with
  | EmptyString => None
  | String c r =>
      let neg := Ascii.eqb c "-" in
      v ← decimalValue (if Ascii.eqb c "+" || neg then r else s);
      let n := if neg then - v else v in
      if (- 2 ^ 63 <=? n) && (n <? 2 ^ 63) then Some n else None
  end.

(** The boolean literals of the specification. *)
Definition boolLiteral (s : string) : option bool :=
  if String.eqb s "true" then Some true
  else if String.eqb s "false" then Some false
  else None.

(** The classification of one part, in the order of the specification,
    for a given reading of the boolean literals. *)
Definition classify (boolOf : string -> option bool) (part : string) : value :=
  let part := TrimSpace part in
  match intLiteral part with
  | Some n => VInt n
  | None =>
      match boolOf part with
      | Some b => VBool b
      | None => VString part
      end
  end.

(** [stringsToSlice] as section 4.1 of the specification words it. *)
Definition stringsToSlice (boolOf : string -> option bool) (text : string)
  : list value :=
  match text with
  | EmptyString => []
  | _ => map (classify boolOf) (Split text ",")
  end.


(** The precondition of section 4.4 on the columns of a parameter map:
    all five present, of one length that is not zero. *)
Definition wellFormed (params : Values) : Prop :=
  let n := length (values params "method") in
  (0 < n)%nat
  /\ length (values params "arg") = n
  /\ length (values params "decimal") = n
  /\ length (values params "tag") = n
  /\ length (values params "resultJMESPath") = n.



End Spec.

Module Mock.

Import GoStrings.

Definition identStart (c : ascii) : bool :=
  between 65 90 c || between 97 122 c || (byte c =? 95).

Fixpoint identRest (s : string) : bool :=
  match s with
  | EmptyString => true
  | String c r => (identStart c || between 48 57 c) && identRest r
  end.

(** An unquoted JMESPath identifier. *)
Definition isIdentifier (s : string) : bool :=
  match s with
  | EmptyString => false
  | String c r => identStart c && identRest r
  end.

(** [m[key]] on a decoded object: [nil] for an absent key. *)
Fixpoint field (key : string) (fields : list (string * json)) : json :=
  match fields with
  | [] => JNull
  | (k, v) :: rest => if String.eqb k key then v else field key rest
  end.

(** [jmespath.Search] for the expressions that are one identifier: the
    field of that name of an object, [null] when the field is absent or
    the data is no object, without error.  On the [*string] of the first
    revision's batch branch the library looks the field up by reflection
    in the pointed-to value as in a struct, which panics.  Every other
    expression is outside this stand-in and is answered with an error. *)
Definition Search (expr : string) (data : searchData) : libResult json :=
  if isIdentifier expr then
    match data with
    | OfJSON (JObject fields) => LOk (field expr fields)
    | OfJSON _ => LOk JNull
    | OfStringPtr _ => LPanic
    end
  else LErr.

(** The double quote. *)
Definition quote : ascii := ascii_of_nat 34.

(** [json.Marshal] of a decoded string that needs no escape, and of the
    literals; other values are outside this stand-in. *)
Definition Marshal (v : json) : option string :=
  match v with
  | JNull => Some "null"
  | JBool true => Some "true"
  | JBool false => Some "false"
  | JString s =>
      if forallb (fun c => between 32 126 c && negb (Spec.hasByte c "\<>&")
                          && negb (Ascii.eqb c quote))
                 (list_ascii_of_string s)
      then Some (String quote s +:+ String quote EmptyString) else None
  | _ => None
  end.

(** The libraries of the examples: every target can be dialled.  The
    results used in the examples contain no number, so that the text of a
    [float64] is never asked for. *)
Definition libs : Libraries :=
  {| ethclient_Dial := fun _ => true;
     jmespath_Search := Search;
     json_Marshal := Marshal;
     fmt_float64 := fun _ => "";
     parseJSONRPCParams := Spec.parseJSONRPCParams |}.

(** [url.Values] from its keys and their values. *)
Definition query (l : list (string * list string)) : Values := list_to_map l.

End Mock.

(** * Properties *)

(** ** [strconv.ParseInt] reads the base-10 [int64] literals *)

Section ParseInt.

Import GoStrings strconv.

Lemma digitsValue_ge s : forall acc v,
  0 <= acc -> Spec.digitsValue s acc = Some v -> acc <= v.
Proof.
  induction s as [|c r IH]; simpl; intros acc v Hacc H.
  - injection H as <-. lia.
  - destruct (between 48 57 c) eqn:Hd; [|discriminate].
    unfold between in Hd. apply andb_true_iff in Hd as [H1 H2].
    apply Z.leb_le in H1, H2.
    apply IH in H; lia.
Qed.

Lemma parseUintLoop_range s : forall n,
  snd (parseUintLoop s n) = Some ErrRange -> fst (parseUintLoop s n) = maxUint64.
Proof.
  induction s as [|c r IH]; simpl; intros n H; [discriminate|].
  destruct (isDigit c); [|discriminate].
  destruct (_ <=? n); [reflexivity|].
  destruct (maxUint64 <? _); [reflexivity|].
  now apply IH.
Qed.

(** The digit loop against the positional value: it succeeds exactly on
    the digit strings whose value fits [uint64]. *)
Lemma parseUintLoop_digits s : forall n,
  0 <= n <= maxUint64 ->
  match Spec.digitsValue s n with
  | Some v =>
      if v <=? maxUint64 then parseUintLoop s n = (v, None)
      else snd (parseUintLoop s n) = Some ErrRange
  | None => snd (parseUintLoop s n) <> None
  end.
Proof.
  induction s as [|c r IH]; simpl; intros n Hn.
  - destruct (n <=? maxUint64) eqn:E; [reflexivity|].
    apply Z.leb_gt in E. lia.
  - unfold isDigit. destruct (between 48 57 c) eqn:Hd; [|simpl; discriminate].
    assert (Hc : 0 <= byte c - 48 <= 9).
    { unfold between in Hd. apply andb_true_iff in Hd as [H1 H2].
      apply Z.leb_le in H1, H2. lia. }
    assert (Hmax : maxUint64 = 18446744073709551615) by reflexivity.
    assert (Hcut : maxUint64 / 10 + 1 = 1844674407370955162) by reflexivity.
    rewrite Hcut.
    destruct (1844674407370955162 <=? n) eqn:E1.
    { apply Z.leb_le in E1.
      destruct (Spec.digitsValue r _) as [v|] eqn:Ev; simpl; [|discriminate].
      apply digitsValue_ge in Ev; [|lia].
      destruct (v <=? maxUint64) eqn:E2; [apply Z.leb_le in E2; lia|reflexivity]. }
    apply Z.leb_gt in E1.
    destruct (maxUint64 <? n * 10 + (byte c - 48)) eqn:E2.
    { apply Z.ltb_lt in E2.
      destruct (Spec.digitsValue r _) as [v|] eqn:Ev; simpl; [|discriminate].
      apply digitsValue_ge in Ev; [|lia].
      destruct (v <=? maxUint64) eqn:E3; [apply Z.leb_le in E3; lia|reflexivity]. }
    apply Z.ltb_ge in E2. apply IH. lia.
Qed.

Lemma ParseUint_decimal s :
  match Spec.decimalValue s with
  | Some v =>
      if v <=? maxUint64 then ParseUint s = (v, None)
      else ParseUint s = (maxUint64, Some ErrRange)
  | None =>
      snd (ParseUint s) = Some ErrSyntax \/ ParseUint s = (maxUint64, Some ErrRange)
  end.
Proof.
  destruct s as [|c r]; [simpl; auto|].
  unfold Spec.decimalValue, ParseUint.
  pose proof (parseUintLoop_digits (String c r) 0 ltac:(unfold maxUint64; lia)) as H.
  pose proof (parseUintLoop_range (String c r) 0) as H'.
  destruct (Spec.digitsValue _ 0) as [v|].
  - destruct (v <=? maxUint64); [exact H|].
    specialize (H' H).
    destruct (parseUintLoop _ 0) as [a b]. simpl in *. congruence.
  - destruct (parseUintLoop _ 0) as [a [[]|]]; simpl in *; auto; [|congruence].
    right. rewrite H'; reflexivity.
Qed.

(** [ParseInt] succeeds exactly on the literals of [Spec.intLiteral],
    with their value. *)
Lemma ParseInt_intLiteral s :
  match Spec.intLiteral s with
  | Some n => ParseInt s = (n, None)
  | None => snd (ParseInt s) <> None
  end.
Proof.
  destruct s as [|c r]; [simpl; discriminate|].
  unfold Spec.intLiteral, ParseInt.
  set (neg := Ascii.eqb c "-").
  set (s' := if Ascii.eqb c "+" || neg then r else String c r).
  pose proof (ParseUint_decimal s') as H.
  assert (Hmax : maxUint64 = 18446744073709551615) by reflexivity.
  destruct (Spec.decimalValue s') as [v|] eqn:Ev; simpl.
  - assert (Hv : 0 <= v).
    { unfold Spec.decimalValue in Ev. destruct s'; [discriminate|].
      apply digitsValue_ge in Ev; lia. }
    destruct (v <=? maxUint64) eqn:E1.
    + rewrite H. apply Z.leb_le in E1.
      destruct neg; simpl.
      * destruct (2 ^ 63 <? v) eqn:E2.
        -- apply Z.ltb_lt in E2.
           destruct (- 2 ^ 63 <=? - v) eqn:E3; [apply Z.leb_le in E3; lia|].
           simpl. discriminate.
        -- apply Z.ltb_ge in E2.
           destruct (- 2 ^ 63 <=? - v) eqn:E3; [|apply Z.leb_gt in E3; lia].
           destruct (- v <? 2 ^ 63) eqn:E4; [|apply Z.ltb_ge in E4; lia].
           reflexivity.
      * destruct (2 ^ 63 <=? v) eqn:E2.
        -- apply Z.leb_le in E2.
           destruct (v <? 2 ^ 63) eqn:E4; [apply Z.ltb_lt in E4; lia|].
           rewrite andb_false_r. simpl. discriminate.
        -- apply Z.leb_gt in E2.
           destruct (- 2 ^ 63 <=? v) eqn:E3; [|apply Z.leb_gt in E3; lia].
           destruct (v <? 2 ^ 63) eqn:E4; [|apply Z.ltb_ge in E4; lia].
           reflexivity.
    + rewrite H. apply Z.leb_gt in E1.
      destruct neg; simpl.
      * destruct (- 2 ^ 63 <=? - v) eqn:E3; [apply Z.leb_le in E3; lia|].
        simpl. discriminate.
      * destruct (v <? 2 ^ 63) eqn:E4; [apply Z.ltb_lt in E4; lia|].
        rewrite andb_false_r. simpl. discriminate.
  - destruct H as [H | ->].
    + destruct (ParseUint s') as [un e]. simpl in H. subst e. simpl. discriminate.
    + destruct neg; simpl; discriminate.
Qed.

End ParseInt.

(** ** Parameter coercion *)

Lemma coercePart_classify part :
  coercePart part = Spec.classify strconv.ParseBool part.
Proof.
  unfold coercePart, Spec.classify.
  pose proof (ParseInt_intLiteral (GoStrings.TrimSpace part)) as H.
  destruct (Spec.intLiteral _) as [n|].
  - now rewrite H.
  - destruct (strconv.ParseInt _) as [v [e|]]; [reflexivity|].
    now contradiction H.
Qed.

(** C5, as the specification words it: the part ["t"] is none of the
    literals [true] and [false], so that the specification keeps it as a
    string, but [strconv.ParseBool] accepts it and the code emits the
    boolean [true]. *)
Lemma C5_short_spelling_is_a_boolean :
  stringsToSlice "t" = [VBool true]
  /\ Spec.stringsToSlice Spec.boolLiteral "t" = [VString "t"].
Proof. split; reflexivity. Qed.

(** C5, amended: for every input, [stringsToSlice] splits on commas, trims
    each part and classifies it in order: a base-10 signed integer that
    fits [int64] becomes that integer; otherwise a spelling that
    [strconv.ParseBool] accepts ([t], [T], [TRUE], [true], [True], [f],
    [F], [FALSE], [false], [False]; [1] and [0] are integers) becomes
    that boolean; otherwise the trimmed part stays a string.  The input
    ["42,true,hello,0xabc"] gives [42, true, "hello", "0xabc"]. *)
Theorem C5_stringsToSlice_classifies s :
  stringsToSlice s = Spec.stringsToSlice strconv.ParseBool s
  /\ stringsToSlice "42,true,hello,0xabc"
     = [VInt 42; VBool true; VString "hello"; VString "0xabc"].
Proof.
  split; [|reflexivity].
  unfold stringsToSlice, Spec.stringsToSlice.
  destruct s as [|c r]; [reflexivity|]. simpl String.eqb.
  apply map_ext. intros part. apply coercePart_classify.
Qed.



(** ** The decimal normaliser *)

Section SetString.

Import GoStrings.

Ltac bounds :=
  unfold between in *;
  repeat match goal with
         | H : (_ && _)%bool = true |- _ => apply andb_true_iff in H as [? ?]
         | H : (_ && _)%bool = false |- _ => apply andb_false_iff in H as [?|?]
         | H : (_ <=? _) = true |- _ => apply Z.leb_le in H
         | H : (_ <=? _) = false |- _ => apply Z.leb_gt in H
         end.

Lemma hexDigit_digitVal c d :
  Spec.hexDigit c = Some d -> big.digitVal c = d /\ d < 16.
Proof.
  unfold Spec.hexDigit, big.digitVal.
  destruct (between 48 57 c) eqn:E1.
  { intros [= <-]. bounds. lia. }
  destruct (between 97 102 c) eqn:E2.
  { intros [= <-]. destruct (between 97 122 c) eqn:E3; bounds; lia. }
  destruct (between 65 70 c) eqn:E3; [|discriminate].
  intros [= <-].
  destruct (between 97 122 c) eqn:E4; [bounds; lia|].
  destruct (between 65 90 c) eqn:E5; bounds; lia.
Qed.

Lemma decDigit_digitVal c :
  between 48 57 c = true -> big.digitVal c = byte c - 48 /\ byte c - 48 < 10.
Proof.
  intros E. unfold big.digitVal. rewrite E. bounds. lia.
Qed.

Lemma scanDigits_hex s : forall acc cnt v,
  Spec.hexDigitsValue s acc = Some v ->
  big.scanDigits 16 s acc cnt = (v, (cnt + String.length s)%nat, "").
Proof.
  induction s as [|c r IH]; simpl; intros acc cnt v H.
  - injection H as <-. now rewrite Nat.add_0_r.
  - destruct (Spec.hexDigit c) as [d|] eqn:Ed; [|discriminate]. simpl in H.
    apply hexDigit_digitVal in Ed as [-> Hd].
    apply Z.ltb_lt in Hd. rewrite Hd.
    rewrite (IH _ (S cnt) _ H). now rewrite Nat.add_succ_r.
Qed.

Lemma scanDigits_decimal s : forall acc cnt v,
  Spec.digitsValue s acc = Some v ->
  big.scanDigits 10 s acc cnt = (v, (cnt + String.length s)%nat, "").
Proof.
  induction s as [|c r IH]; simpl; intros acc cnt v H.
  - injection H as <-. now rewrite Nat.add_0_r.
  - destruct (between 48 57 c) eqn:Ed; [|discriminate].
    apply decDigit_digitVal in Ed as [-> Hd].
    apply Z.ltb_lt in Hd. rewrite Hd.
    rewrite (IH _ (S cnt) _ H). now rewrite Nat.add_succ_r.
Qed.

(** A digit is no sign. *)
Lemma scanSign_digit c r :
  (exists d, Spec.hexDigit c = Some d) ->
  big.scanSign (String c r) = (false, String c r).
Proof.
  intros [d Hd]. unfold big.scanSign.
  destruct (Ascii.eqb_spec c "-") as [->|_]; [discriminate|].
  destruct (Ascii.eqb_spec c "+") as [->|_]; [discriminate|].
  reflexivity.
Qed.




End SetString.










(** ** The prober: its preconditions *)

Ltac unfold_prober :=
  unfold mbind, prober_bind, bind, mret, prober_ret, pure, ret, panic in *.

Lemma checkColumns_wellFormed params w :
  Spec.wellFormed params ->
  checkColumns (values params "method") (values params "arg")
    (values params "decimal") (values params "tag")
    (values params "resultJMESPath") w = (Next tt, w).
Proof.
  intros (H0 & H1 & H2 & H3 & H4). unfold checkColumns, isEmpty, sameLen.
  rewrite H1, H2, H3, H4, !Nat.eqb_refl.
  destruct (length (values params "method")) as [|n]; [lia|]. reflexivity.
Qed.

Lemma checkColumns_not_wellFormed params w :
  ~ Spec.wellFormed params ->
  checkColumns (values params "method") (values params "arg")
    (values params "decimal") (values params "tag")
    (values params "resultJMESPath") w = (Return false, w).
Proof.
  intros H. unfold checkColumns, isEmpty, sameLen.
  match goal with |- (if ?c then _ else _) _ = _ => destruct c eqn:E1 end;
    [reflexivity|].
  match goal with |- (if ?c then _ else _) _ = _ => destruct c eqn:E2 end;
    [reflexivity|].
  exfalso. apply H.
  repeat (apply orb_false_iff in E1 as [E1 ?]).
  repeat (apply orb_false_iff in E2 as [E2 ?]).
  repeat match goal with
         | Hn : negb _ = false |- _ => apply negb_false_iff in Hn
         | Hn : (_ =? _)%nat = true |- _ => apply Nat.eqb_eq in Hn
         | Hn : (_ =? _)%nat = false |- _ => apply Nat.eqb_neq in Hn
         end.
  unfold Spec.wellFormed. repeat split; lia.
Qed.

(** C2: when the five columns are not all present with one length that is
    not zero (the empty parameter map is such a case), both revisions of
    [ProbeJSONRPC] return [false], have sent no request and leave the
    registry as it was. *)
Theorem C2_malformed_columns_fail_before_any_call
  libs ep target params reg :
  ~ Spec.wellFormed params ->
  Rev1.ProbeJSONRPC libs ep target params reg
    = (Returned false, {| registry := reg; wire := [] |})
  /\ Rev2.ProbeJSONRPC libs ep target params reg
    = (Returned false, {| registry := reg; wire := [] |}).
Proof.
  intros H.
  unfold Rev1.ProbeJSONRPC, Rev2.ProbeJSONRPC, Rev1.body, Rev2.body, run.
  unfold_prober.
  destruct (ethclient_Dial libs (withScheme target)); [|split; reflexivity].
  rewrite (checkColumns_not_wellFormed _ _ H). split; reflexivity.
Qed.

Lemma C2_witness :
  Rev1.ProbeJSONRPC Mock.libs (cannedEndpoint (JString "0x1234")) "rpc.example"
    (Mock.query [("method", ["a"; "b"]); ("arg", ["x"])]) ∅
    = (Returned false, {| registry := ∅; wire := [] |})
  /\ Rev2.ProbeJSONRPC Mock.libs (cannedEndpoint (JString "0x1234")) "rpc.example"
    (Mock.query [("method", ["a"; "b"]); ("arg", ["x"])]) ∅
    = (Returned false, {| registry := ∅; wire := [] |}).
Proof.
  apply C2_malformed_columns_fail_before_any_call.
  intros (_ & H & _). vm_compute in H. discriminate H.
Defined.



(** ** The prober: control flow *)

Lemma failsOnly_bind {A B} (c : prober A) (k : A -> prober B) :
  failsOnly c -> (forall a, failsOnly (k a)) -> failsOnly (c ≫= k).
Proof.
  intros Hc Hk w b w'. unfold_prober.
  destruct (c w) as [[a| b0 |] w0] eqn:E; intros H.
  - eapply Hk; eassumption.
  - injection H as <- <-. eapply Hc; eassumption.
  - discriminate.
Qed.

Lemma failsOnly_pure {A} (a : A) : failsOnly (pure a).
Proof. intros w b w' H. discriminate. Qed.

Lemma failsOnly_mret {A} (a : A) : failsOnly (mret a).
Proof. intros w b w' H. discriminate. Qed.

Lemma failsOnly_ret {A} : failsOnly (@ret A false).
Proof. intros w b w' [= <- _]. reflexivity. Qed.

Lemma failsOnly_panic {A} : failsOnly (@panic A).
Proof. intros w b w' H. discriminate. Qed.

Lemma failsOnly_index l i : failsOnly (index l i).
Proof.
  unfold index. destruct (l !! i); [apply failsOnly_pure|apply failsOnly_panic].
Qed.

Lemma failsOnly_orFail {A} (r : option A) : failsOnly (orFail r).
Proof. destruct r; [apply failsOnly_pure|apply failsOnly_ret]. Qed.

Lemma failsOnly_call ep m args : failsOnly (call ep m args).
Proof.
  intros w b w'. unfold call. destruct (Call ep m args); [discriminate|].
  now intros [= <- _].
Qed.

Lemma failsOnly_batchCall ep elems : failsOnly (batchCall ep elems).
Proof.
  intros w b w'. unfold batchCall. destruct (BatchCall ep elems); [discriminate|].
  now intros [= <- _].
Qed.

Lemma failsOnly_search libs expr data : failsOnly (search libs expr data).
Proof.
  unfold search. destruct (jmespath_Search libs expr data);
    [apply failsOnly_pure|apply failsOnly_ret|apply failsOnly_panic].
Qed.

Lemma failsOnly_gaugeSet name lvs v : failsOnly (gaugeSet name lvs v).
Proof.
  intros w b w'. unfold gaugeSet. destruct (forallb _ _); discriminate.
Qed.

Lemma failsOnly_MustRegister name : failsOnly (MustRegister name).
Proof.
  intros w b w'. unfold MustRegister. destruct (registry w !! name); discriminate.
Qed.

Lemma failsOnly_checkColumns a b c d e : failsOnly (checkColumns a b c d e).
Proof.
  unfold checkColumns.
  repeat (match goal with |- failsOnly (if ?x then _ else _) => destruct x end);
    first [apply failsOnly_ret | apply failsOnly_pure].
Qed.

Lemma failsOnly_forRange {A} (body : nat -> A -> prober unit) l :
  (forall i x, failsOnly (body i x)) -> forall i, failsOnly (forRange body i l).
Proof.
  intros Hb. induction l as [|x l IH]; intros i; simpl.
  - apply failsOnly_pure.
  - apply failsOnly_bind; [apply Hb|intros _; apply IH].
Qed.

Create HintDb prober.

#[local] Hint Resolve failsOnly_pure failsOnly_mret failsOnly_ret
  failsOnly_panic failsOnly_index failsOnly_orFail failsOnly_call
  failsOnly_batchCall failsOnly_search failsOnly_gaugeSet
  failsOnly_MustRegister failsOnly_checkColumns : prober.

Ltac fails_only :=
  repeat first
    [ progress auto with prober
    | apply failsOnly_bind; [|intros ?]
    | apply failsOnly_forRange; intros ? ?
    | match goal with
      | |- failsOnly (if ?x then _ else _) => destruct x
      | |- failsOnly (match ?x with _ => _ end) => destruct x
      end ].

(** A loop whose body cannot get past the element at offset [k] does not
    run to its end. *)
Lemma forRange_stops {A} (body : nat -> A -> prober unit) l :
  forall i k x w,
    l !! k = Some x ->
    (forall w' u w'', body (i + k)%nat x w' <> (Next u, w'')) ->
    forall u w'', forRange body i l w <> (Next u, w'').
Proof.
  induction l as [|y l IH]; intros i k x w Hk Hb u w''; [discriminate|].
  simpl. unfold_prober.
  destruct k as [|k]; simpl in Hk.
  - injection Hk as ->. rewrite Nat.add_0_r in Hb.
    destruct (body i x w) as [[[]| |] w0] eqn:E; try discriminate.
    exfalso. eapply Hb. eassumption.
  - destruct (body i y w) as [[[]| |] w0] eqn:E; try discriminate.
    eapply IH; [eassumption|]. intros w1 u1 w2.
    replace (S i + k)%nat with (i + S k)%nat by lia. apply Hb.
Qed.

Lemma checkColumns_Next params w u w' :
  checkColumns (values params "method") (values params "arg")
    (values params "decimal") (values params "tag")
    (values params "resultJMESPath") w = (Next u, w') ->
  Spec.wellFormed params /\ w' = w.
Proof.
  intros H.
  assert (Hdec : Spec.wellFormed params \/ ~ Spec.wellFormed params).
  { unfold Spec.wellFormed.
    destruct (length (values params "method")) as [|n] eqn:E; [right; lia|].
    destruct (Nat.eq_dec (length (values params "arg")) (S n));
    destruct (Nat.eq_dec (length (values params "decimal")) (S n));
    destruct (Nat.eq_dec (length (values params "tag")) (S n));
    destruct (Nat.eq_dec (length (values params "resultJMESPath")) (S n));
    first [left; repeat split; (lia || assumption) | right; intros (?&?&?&?&?); contradiction]. }
  destruct Hdec as [Hwf|Hn].
  - rewrite (checkColumns_wellFormed _ _ Hwf) in H. injection H as _ <-. auto.
  - rewrite (checkColumns_not_wellFormed _ _ Hn) in H. discriminate.
Qed.

Lemma noNext_bind_l {A B} (c : prober A) (k : A -> prober B) :
  noNext c -> noNext (c ≫= k).
Proof.
  intros Hc w u w'. unfold_prober.
  destruct (c w) as [[a| |] w0] eqn:E; try discriminate.
  exfalso. eapply Hc. eassumption.
Qed.

Lemma noNext_bind_r {A B} (c : prober A) (k : A -> prober B) :
  (forall a, noNext (k a)) -> noNext (c ≫= k).
Proof.
  intros Hk w u w'. unfold_prober.
  destruct (c w) as [[a| |] w0] eqn:E; try discriminate. apply Hk.
Qed.

Lemma noNext_bind_index {B} l i x (k : string -> prober B) :
  l !! i = Some x -> noNext (k x) -> noNext (index l i ≫= k).
Proof.
  intros Hl Hk w u w'. unfold index. rewrite Hl. apply Hk.
Qed.

Lemma noNext_ret {A} b : noNext (@ret A b).
Proof. intros w u w'. discriminate. Qed.

Lemma noNext_forRange {A} (body : nat -> A -> prober unit) l i k x :
  l !! k = Some x -> noNext (body (i + k)%nat x) -> noNext (forRange body i l).
Proof.
  intros Hk Hb w u w'. eapply forRange_stops; [eassumption|]. apply Hb.
Qed.

Lemma eqb_blank p : GoStrings.TrimSpace p <> "" -> String.eqb p "" = false.
Proof.
  intros H. destruct (String.eqb_spec p "") as [->|]; [|reflexivity]. now destruct H.
Qed.

Section SearchError.
Variable libs : Libraries.
Variable ep : Endpoint.
Variable params : Values.
Variable target : string.
Variable i : nat.
Variable p : string.
Hypothesis Hp : values params "resultJMESPath" !! i = Some p.
Hypothesis Hblank : GoStrings.TrimSpace p <> "".
Hypothesis Herr : forall data, jmespath_Search libs p data = LErr.

Lemma noNext_search data : noNext (search libs p data).
Proof. unfold search. rewrite Herr. apply noNext_ret. Qed.

Lemma Rev2_resultString_search_error rawMsg :
  noNext (Rev2.resultString libs p rawMsg).
Proof.
  unfold Rev2.resultString. apply String.eqb_neq in Hblank. rewrite Hblank.
  apply noNext_bind_r; intros j. apply noNext_bind_l, noNext_search.
Qed.

Lemma Rev2_callBody_search_error m :
  noNext (Rev2.callBody libs ep params target i m).
Proof.
  unfold Rev2.callBody. cbv zeta.
  do 3 (apply noNext_bind_r; intros ?).
  eapply noNext_bind_index; [exact Hp|].
  apply noNext_bind_l, Rev2_resultString_search_error.
Qed.

Lemma Rev2_batchBody_search_error results e :
  noNext (Rev2.batchBody libs params target results i e).
Proof.
  unfold Rev2.batchBody. cbv zeta.
  apply noNext_bind_r; intros ?.
  eapply noNext_bind_index; [exact Hp|].
  apply noNext_bind_l, Rev2_resultString_search_error.
Qed.

Lemma Rev1_callBody_search_error m :
  noNext (Rev1.callBody libs ep params target i m).
Proof.
  unfold Rev1.callBody. cbv zeta.
  do 2 (apply noNext_bind_r; intros ?).
  eapply noNext_bind_index; [exact Hp|].
  apply noNext_bind_l. rewrite (eqb_blank _ Hblank). cbn [negb].
  apply noNext_bind_l, noNext_search.
Qed.

Lemma Rev1_batchBody_search_error results e :
  noNext (Rev1.batchBody libs params target results i e).
Proof.
  unfold Rev1.batchBody. cbv zeta.
  apply noNext_bind_r; intros ?.
  eapply noNext_bind_index; [exact Hp|].
  apply noNext_bind_l. rewrite (eqb_blank _ Hblank). cbn [negb].
  apply noNext_bind_l, noNext_search.
Qed.

End SearchError.

Lemma Rev1_buildBatch_length params ms : forall i w batch w',
  Rev1.buildBatch params i ms w = (Next batch, w') -> length batch = length ms.
Proof.
  induction ms as [|m ms IH]; intros i w batch w'; simpl.
  - intros [= <- _]. reflexivity.
  - unfold index. unfold_prober.
    destruct (_ !! i); [|discriminate].
    destruct (Rev1.buildBatch params (S i) ms w) as [[rest| |] w0] eqn:E; try discriminate.
    intros [= <- _]. simpl. f_equal. eapply IH. eassumption.
Qed.

Lemma Rev2_buildBatch_length libs params ms : forall i w batch w',
  Rev2.buildBatch libs params i ms w = (Next batch, w') -> length batch = length ms.
Proof.
  induction ms as [|m ms IH]; intros i w batch w'; simpl.
  - intros [= <- _]. reflexivity.
  - unfold index, orFail. unfold_prober.
    destruct (_ !! i); [|discriminate].
    destruct (parseJSONRPCParams libs _); [|discriminate].
    destruct (Rev2.buildBatch libs params (S i) ms w) as [[rest| |] w0] eqn:E; try discriminate.
    intros [= <- _]. simpl. f_equal. eapply IH. eassumption.
Qed.

Lemma Rev1_failsOnly libs ep target params : failsOnly (Rev1.body libs ep target params).
Proof.
  unfold Rev1.body, Rev1.callBody, Rev1.batchBody, Rev1.setGauge. cbv zeta.
  assert (forall ms i, failsOnly (Rev1.buildBatch params i ms)).
  { induction ms; intros; cbn [Rev1.buildBatch Rev2.buildBatch]; fails_only. }
  fails_only.
Qed.

Lemma Rev2_failsOnly libs ep target params : failsOnly (Rev2.body libs ep target params).
Proof.
  unfold Rev2.body, Rev2.callBody, Rev2.batchBody, Rev2.setGauge, Rev2.resultString,
    Rev2.unmarshalString. cbv zeta.
  assert (forall ms i, failsOnly (Rev2.buildBatch libs params i ms)).
  { induction ms; intros; cbn [Rev1.buildBatch Rev2.buildBatch]; fails_only. }
  fails_only.
Qed.

Lemma noNext_bind_checkColumns {B} params (k : unit -> prober B) :
  (Spec.wellFormed params -> noNext (k tt)) ->
  noNext (checkColumns (values params "method") (values params "arg")
            (values params "decimal") (values params "tag")
            (values params "resultJMESPath") ≫= k).
Proof.
  intros Hk w u w'. unfold_prober.
  destruct (checkColumns _ _ _ _ _ w) as [[[]| |] w0] eqn:E; try discriminate.
  apply checkColumns_Next in E as [Hwf ->]. now apply Hk.
Qed.

Lemma noNext_bind_Rev1_buildBatch {B} params i ms
  (k : list (string * list value) -> prober B) :
  (forall batch, length batch = length ms -> noNext (k batch)) ->
  noNext (Rev1.buildBatch params i ms ≫= k).
Proof.
  intros Hk w u w'. unfold_prober.
  destruct (Rev1.buildBatch params i ms w) as [[batch| |] w0] eqn:E; try discriminate.
  apply Rev1_buildBatch_length in E. now apply Hk.
Qed.

Lemma noNext_bind_Rev2_buildBatch {B} libs params i ms
  (k : list (string * list value) -> prober B) :
  (forall batch, length batch = length ms -> noNext (k batch)) ->
  noNext (Rev2.buildBatch libs params i ms ≫= k).
Proof.
  intros Hk w u w'. unfold_prober.
  destruct (Rev2.buildBatch libs params i ms w) as [[batch| |] w0] eqn:E; try discriminate.
  apply Rev2_buildBatch_length in E. now apply Hk.
Qed.

Lemma run_not_true body reg :
  failsOnly body -> noNext body -> fst (run body reg) <> Returned true.
Proof.
  intros Hf Hn. unfold run.
  destruct (body _) as [[u|b|] w] eqn:E; simpl.
  - exfalso. eapply Hn. eassumption.
  - apply Hf in E as ->. discriminate.
  - discriminate.
Qed.

Lemma lookup_same_length {A B} (l1 : list A) (l2 : list B) k x :
  l1 !! k = Some x -> length l2 = length l1 -> exists y, l2 !! k = Some y.
Proof.
  intros H1 Hl. apply lookup_lt_Some in H1.
  destruct (lookup_lt_is_Some_2 l2 k) as [y Hy]; [lia|]. eauto.
Qed.

(** ** Extraction of a field that is absent *)

(** The specification's claim C6 does not hold: in the second revision
    the expression [b] on the result [{"a": "0x1"}] selects an absent
    field; the search answers [nil] without error, [fmt.Sprintf] prints
    it as [<nil>], the normaliser reads that as zero, the gauge is set to
    [0] and the probe returns [true]. *)
Lemma C6_absent_field_succeeds_with_zero :
  let params := Mock.query [("method", ["eth_getBalance"]); ("arg", [""]);
                            ("decimal", ["0"]); ("tag", ["Balance"]);
                            ("resultJMESPath", ["b"]); ("module", ["jsonrpc"])] in
  Rev2.ProbeJSONRPC Mock.libs (cannedEndpoint (JObject [("a", JString "0x1")]))
    "rpc.example" params ∅
  = (Returned true,
     {| registry :=
          {[ "probe_jsonrpc" :=
               {[ ["http://rpc.example"; "eth_getBalance"; ""; "Balance"]
                  := S754_zero false ]} ]};
        wire := [Batch [("eth_getBalance", [])]] |}).
Proof. vm_compute. reflexivity. Qed.

(** C6, amended: when the search of an expression that is not blank
    reports an error, for the descriptor at some position [k], a probe of
    the [jsonrpc] module does not return [true], in either revision and
    in either mode.  (The selection of an absent field is no error of the
    search.) *)
Theorem C6_search_error_fails_the_probe libs ep target params reg k p :
  Get params "module" = "jsonrpc" ->
  values params "resultJMESPath" !! k = Some p ->
  GoStrings.TrimSpace p <> "" ->
  (forall data, jmespath_Search libs p data = LErr) ->
  fst (Rev1.ProbeJSONRPC libs ep target params reg) <> Returned true
  /\ fst (Rev2.ProbeJSONRPC libs ep target params reg) <> Returned true.
Proof.
  intros Hmod Hp Hblank Herr. split.
  - apply run_not_true; [apply Rev1_failsOnly|].
    unfold Rev1.body. cbv zeta. rewrite Hmod. cbn [String.eqb Ascii.eqb Bool.eqb].
    apply noNext_bind_r; intros _.
    apply noNext_bind_checkColumns; intros (_ & _ & _ & _ & Hlen).
    apply noNext_bind_r; intros _.
    destruct (String.eqb _ "true").
    + destruct (lookup_same_length _ (values params "method") _ _ Hp) as [m Hm]; [lia|].
      eapply noNext_forRange; [exact Hm|].
      eapply Rev1_callBody_search_error; eassumption.
    + apply noNext_bind_Rev1_buildBatch; intros batch Hb.
      apply noNext_bind_r; intros results.
      destruct (lookup_same_length _ batch _ _ Hp) as [e He]; [lia|].
      eapply noNext_forRange; [exact He|].
      eapply Rev1_batchBody_search_error; eassumption.
  - apply run_not_true; [apply Rev2_failsOnly|].
    unfold Rev2.body. cbv zeta. rewrite Hmod. cbn [String.eqb Ascii.eqb Bool.eqb].
    apply noNext_bind_r; intros _.
    apply noNext_bind_checkColumns; intros (_ & _ & _ & _ & Hlen).
    apply noNext_bind_r; intros _.
    destruct (String.eqb _ "true").
    + destruct (lookup_same_length _ (values params "method") _ _ Hp) as [m Hm]; [lia|].
      eapply noNext_forRange; [exact Hm|].
      eapply Rev2_callBody_search_error; eassumption.
    + apply noNext_bind_Rev2_buildBatch; intros batch Hb.
      apply noNext_bind_r; intros results.
      destruct (lookup_same_length _ batch _ _ Hp) as [e He]; [lia|].
      eapply noNext_forRange; [exact He|].
      eapply Rev2_batchBody_search_error; eassumption.
Qed.

Lemma C6_witness :
  let params := Mock.query [("method", ["eth_getBalance"]); ("arg", [""]);
                            ("decimal", ["0"]); ("tag", ["Balance"]);
                            ("resultJMESPath", ["["]); ("module", ["jsonrpc"])] in
  let ep := cannedEndpoint (JObject [("a", JString "0x1")]) in
  fst (Rev1.ProbeJSONRPC Mock.libs ep "rpc.example" params ∅) <> Returned true
  /\ fst (Rev2.ProbeJSONRPC Mock.libs ep "rpc.example" params ∅) <> Returned true.
Proof.
  apply (C6_search_error_fails_the_probe Mock.libs _ _ _ _ 0%nat "[").
  - reflexivity.
  - reflexivity.
  - vm_compute. discriminate.
  - intros data. reflexivity.
Defined.

(** ** A blank extraction expression *)

Lemma Rev2_resultString_blank libs p rawMsg :
  GoStrings.TrimSpace p = "" ->
  Rev2.resultString libs p rawMsg = Rev2.unmarshalString rawMsg.
Proof. intros H. unfold Rev2.resultString. rewrite H. reflexivity. Qed.

(** The specification's claim C7 does not hold: in the second revision,
    with a blank expression, the result [true] is not serialised and
    normalised; decoding it into a [string] fails, the probe returns
    [false] and no gauge is set. *)
Lemma C7_boolean_result_fails_the_probe :
  let params := Mock.query [("method", ["eth_syncing"]); ("arg", [""]);
                            ("decimal", ["0"]); ("tag", ["Syncing"]);
                            ("resultJMESPath", [" "]); ("module", ["jsonrpc"])] in
  Rev2.ProbeJSONRPC Mock.libs (cannedEndpoint (JBool true)) "rpc.example" params ∅
  = (Returned false,
     {| registry := {[ "probe_jsonrpc" := ∅ ]};
        wire := [Batch [("eth_syncing", [])]] |}).
Proof. vm_compute. reflexivity. Qed.

(** C7, amended: in the second revision, for a descriptor whose
    expression is blank, a result that is a JSON string is passed
    unquoted to the normaliser and the gauge, a [null] result is passed
    as the empty string, and on any other result (or when the batch has
    none for the descriptor) the probe returns [false] at that
    descriptor; so in the batch loop and, once the argument is parsed and
    the call answered, in the loop of single calls. *)
Theorem C7_blank_expression_second_revision
  libs ep params target results i m e p d a argsSlice result w :
  values params "resultJMESPath" !! i = Some p ->
  values params "decimal" !! i = Some d ->
  GoStrings.TrimSpace p = "" ->
  Rev2.batchBody libs params target results i e w
    = match mjoin (results !! i) with
      | Some (JString s) => Rev2.setGauge params target i s (fst (strconv.ParseInt d)) w
      | Some JNull => Rev2.setGauge params target i "" (fst (strconv.ParseInt d)) w
      | _ => (Return false, w)
      end
  /\ (values params "arg" !! i = Some a ->
      parseJSONRPCParams libs a = Some argsSlice ->
      Call ep m argsSlice = Some result ->
      let w' := {| registry := registry w; wire := wire w ++ [Single m argsSlice] |} in
      Rev2.callBody libs ep params target i m w
        = match result with
          | JString s => Rev2.setGauge params target i s (fst (strconv.ParseInt d)) w'
          | JNull => Rev2.setGauge params target i "" (fst (strconv.ParseInt d)) w'
          | _ => (Return false, w')
          end).
Proof.
  intros Hp Hd Hblank. split.
  - unfold Rev2.batchBody, index. cbv zeta. rewrite Hd, Hp.
    unfold_prober. rewrite (Rev2_resultString_blank _ _ _ Hblank).
    unfold Rev2.unmarshalString. unfold_prober.
    destruct (mjoin (results !! i)) as [[]|]; reflexivity.
  - intros Ha Hparse Hcall. unfold Rev2.callBody, index, orFail, call. cbv zeta.
    rewrite Ha. unfold_prober. rewrite Hparse, Hcall, Hp.
    rewrite (Rev2_resultString_blank _ _ _ Hblank).
    unfold Rev2.unmarshalString. unfold_prober.
    destruct result; rewrite ?Hd; reflexivity.
Qed.

Lemma C7_witness :
  let params := Mock.query [("method", ["eth_syncing"]); ("arg", [""]);
                            ("decimal", ["0"]); ("tag", ["Syncing"]);
                            ("resultJMESPath", [" "]); ("module", ["jsonrpc"])] in
  let w := {| registry := {[ "probe_jsonrpc" := ∅ ]}; wire := [] |} in
  Rev2.batchBody Mock.libs params "http://rpc.example" [Some (JBool true)] 0
    ("eth_syncing", []) w = (Return false, w)
  /\ (values params "arg" !! 0%nat = Some "" ->
      parseJSONRPCParams Mock.libs "" = Some [] ->
      Call (cannedEndpoint (JString "0x10")) "eth_syncing" [] = Some (JString "0x10") ->
      let w' := {| registry := registry w; wire := wire w ++ [Single "eth_syncing" []] |} in
      Rev2.callBody Mock.libs (cannedEndpoint (JString "0x10")) params
        "http://rpc.example" 0 "eth_syncing" w
      = Rev2.setGauge params "http://rpc.example" 0 "0x10" (fst (strconv.ParseInt "0")) w').
Proof.
  apply (C7_blank_expression_second_revision Mock.libs
           (cannedEndpoint (JString "0x10")) _ "http://rpc.example"
           [Some (JBool true)] 0%nat "eth_syncing" ("eth_syncing", []) " " "0"
           "" [] (JString "0x10")).
  - reflexivity.
  - reflexivity.
  - reflexivity.
Defined.

(** ** Panics *)

(** C9 fails on this input: a probe of the [jsonrpc] module with the
    decimals value [-324] against a server that answers [0x0].  The
    scale [math.Pow10(-324)] is zero, the result is zero, and
    [big.Float.Quo] of zero by zero panics with [ErrNaN]; nothing in
    [ProbeJSONRPC] recovers, so the panic leaves the function, in both
    revisions and in both modes. *)
Theorem C9_zero_result_at_decimals_minus_324_panics :
  let params := [("method", ["eth_getBalance"]); ("arg", [""]);
                 ("decimal", ["-324"]); ("tag", ["Balance"]);
                 ("resultJMESPath", [""]); ("module", ["jsonrpc"])] in
  let single := (params ++ [("disableBatch", ["true"])])%list in
  let ep := cannedEndpoint (JString "0x0") in
  fst (Rev1.ProbeJSONRPC Mock.libs ep "rpc.example" (Mock.query params) ∅) = Panic
  /\ fst (Rev2.ProbeJSONRPC Mock.libs ep "rpc.example" (Mock.query params) ∅) = Panic
  /\ fst (Rev1.ProbeJSONRPC Mock.libs ep "rpc.example" (Mock.query single) ∅) = Panic
  /\ fst (Rev2.ProbeJSONRPC Mock.libs ep "rpc.example" (Mock.query single) ∅) = Panic.
Proof. vm_compute. repeat split. Qed.

(** ** Batching *)









Section Batching.

Variable libs : Libraries.
Variable canned : json.
Variable params : Values.
Variable target : string.

Let ep := cannedEndpoint canned.




End Batching.





(** In the second revision the two modes differ when an argument is not
    understood: the batch is given up while it is built, before any
    gauge is set, whereas the single calls before the bad argument have
    set their gauges already. *)
Lemma Rev2_unparsed_argument_gauges_differ :
  let params := [("method", ["m"; "m"]); ("arg", ["latest"; "{to:0x1"]);
                 ("decimal", ["0"; "0"]); ("tag", ["a"; "b"]);
                 ("resultJMESPath", [""; ""]); ("module", ["jsonrpc"])] in
  let single := (params ++ [("disableBatch", ["true"])])%list in
  let ep := cannedEndpoint (JString "0x1") in
  Rev2.ProbeJSONRPC Mock.libs ep "rpc.example" (Mock.query params) ∅
  = (Returned false, {| registry := {[ "probe_jsonrpc" := ∅ ]}; wire := [] |})
  /\ Rev2.ProbeJSONRPC Mock.libs ep "rpc.example" (Mock.query single) ∅
  = (Returned false,
     {| registry :=
          {[ "probe_jsonrpc" :=
               {[ ["http://rpc.example"; "m"; "latest"; "a"]
                  := binary_normalize 53 1024 1 0 false ]} ]};
        wire := [Single "m" [VString "latest"]] |}).
Proof. vm_compute. split; reflexivity. Qed.



(** ** The decimal normaliser: its edges *)

Lemma resultToFloat64WithDecimals_resultInt r d :
  resultToFloat64WithDecimals r d = quoFloat64 (resultInt r) (math.Pow10 d).
Proof. reflexivity. Qed.

Lemma Pow10_in_range d :
  -323 <= d <= 308 -> positiveFinite (math.Pow10 d) = true.
Proof.
  intros H.
  assert (Hall : forallb (fun k => positiveFinite (math.Pow10 (Z.of_nat k - 323)))
                   (seq 0 632) = true) by (vm_compute; reflexivity).
  rewrite forallb_forall in Hall.
  specialize (Hall (Z.to_nat (d + 323))).
  replace (Z.of_nat (Z.to_nat (d + 323)) - 323) with d in Hall by lia.
  apply Hall. apply in_seq. lia.
Qed.

Lemma Pow10_below d : d < -323 -> math.Pow10 d = S754_zero false.
Proof.
  intros H. unfold math.Pow10.
  destruct (Z.leb_spec 0 d); [lia|]. simpl.
  destruct (Z.leb_spec (-323) d); [lia|]. simpl.
  destruct (Z.ltb_spec 0 d); [lia|]. reflexivity.
Qed.

Lemma Pow10_above d : 308 < d -> math.Pow10 d = S754_infinity false.
Proof.
  intros H. unfold math.Pow10.
  destruct (Z.leb_spec 0 d); [|lia].
  destruct (Z.leb_spec d 308); [lia|]. simpl.
  destruct (Z.leb_spec (-323) d); [|lia].
  destruct (Z.leb_spec d 0); [lia|]. simpl.
  destruct (Z.ltb_spec 0 d); [|lia]. reflexivity.
Qed.

Lemma quoFloat64_None x y :
  quoFloat64 x y = None <-> x = 0 /\ isZero y = true.
Proof.
  unfold quoFloat64, big.Quo. destruct x, y; simpl; split; intros H;
    try discriminate; try (destruct H; discriminate); auto.
Qed.

(** X1: [resultToFloat64WithDecimals] panics exactly when the scale is
    below -323, where [math.Pow10] is zero, and the integer read from the
    result is zero: [big.Float.Quo] of zero by zero.  At every other
    input it returns a [float64]. *)
Theorem resultToFloat64WithDecimals_panics_iff r d :
  resultToFloat64WithDecimals r d = None <-> d < -323 /\ resultInt r = 0.
Proof.
  rewrite resultToFloat64WithDecimals_resultInt, quoFloat64_None.
  split.
  - intros [Hx Hy]. split; [|exact Hx].
    destruct (Z.lt_ge_cases d (-323)) as [|Hge]; [assumption|exfalso].
    destruct (Z.le_gt_cases d 308) as [Hle|Hgt].
    + pose proof (Pow10_in_range d (conj Hge Hle)) as Hp.
      destruct (math.Pow10 d); discriminate.
    + rewrite (Pow10_above d) in Hy by lia. discriminate.
  - intros [Hd Hx]. split; [exact Hx|]. now rewrite Pow10_below.
Qed.

Lemma resultInt_unreadable c r :
  10 <= big.digitVal c -> c <> "-"%char -> c <> "+"%char ->
  resultInt (String c r) = 0.
Proof.
  intros Hc Hm Hp. unfold resultInt.
  assert (Hx : GoStrings.HasPrefix (String c r) "0x" = false).
  { cbn [GoStrings.HasPrefix]. destruct (Ascii.eqb_spec "0" c) as [<-|]; [|reflexivity].
    vm_compute in Hc. now destruct Hc. }
  rewrite Hx. unfold big.SetString, big.scanSign.
  destruct (Ascii.eqb_spec c "-"); [contradiction|].
  destruct (Ascii.eqb_spec c "+"); [contradiction|].
  cbn [big.scanDigits]. destruct (Z.ltb_spec (big.digitVal c) 10); [lia|]. reflexivity.
Qed.

Lemma zero_over_Pow10 d :
  -323 <= d -> quoFloat64 0 (math.Pow10 d) = Some (S754_zero false).
Proof.
  intros Hd. destruct (Z.le_gt_cases d 308) as [Hle|Hgt].
  - pose proof (Pow10_in_range d (conj Hd Hle)) as Hp.
    destruct (math.Pow10 d) as [| | |[] m e]; try discriminate. reflexivity.
  - rewrite Pow10_above by lia. reflexivity.
Qed.

(** X2: a result that is empty, or that begins with a byte that is
    neither a decimal digit nor a sign, is read as zero: the failure of
    [SetString] is dropped, and the function returns [+0] at every scale
    from -323 on. *)
Theorem resultToFloat64WithDecimals_unreadable r d :
  match r with
  | EmptyString => True
  | String c _ => 10 <= big.digitVal c /\ c <> "-"%char /\ c <> "+"%char
  end ->
  -323 <= d ->
  resultToFloat64WithDecimals r d = Some (S754_zero false).
Proof.
  intros Hr Hd. rewrite resultToFloat64WithDecimals_resultInt.
  assert (Hx : resultInt r = 0).
  { destruct r as [|c r]; [reflexivity|]. destruct Hr as (?&?&?).
    now apply resultInt_unreadable. }
  rewrite Hx. now apply zero_over_Pow10.
Qed.

Lemma resultToFloat64WithDecimals_unreadable_witness :
  resultToFloat64WithDecimals "<nil>" 18 = Some (S754_zero false).
Proof.
  apply (resultToFloat64WithDecimals_unreadable "<nil>" 18).
  - repeat split; [vm_compute|..]; discriminate.
  - lia.
Defined.

(** X3: above scale 308 the divisor [math.Pow10] is [+Inf], and every
    result, whatever integer it holds, comes out as zero (with the sign
    of the integer). *)
Theorem resultToFloat64WithDecimals_above_308 r d :
  308 < d ->
  resultToFloat64WithDecimals r d = Some (S754_zero (resultInt r <? 0)).
Proof.
  intros Hd. rewrite resultToFloat64WithDecimals_resultInt, Pow10_above by lia.
  destruct (resultInt r); reflexivity.
Qed.

Lemma resultToFloat64WithDecimals_above_308_witness :
  resultToFloat64WithDecimals "0x3635C9ADC5DEA00000" 309
  = Some (S754_zero (resultInt "0x3635C9ADC5DEA00000" <? 0)).
Proof. apply (resultToFloat64WithDecimals_above_308 "0x3635C9ADC5DEA00000" 309). lia. Defined.

Lemma app_cons a p q : String a p +:+ q = String a (p +:+ q).
Proof. reflexivity. Qed.

Lemma scanDigits_prefix p : forall acc cnt v c rest,
  Spec.digitsValue p acc = Some v -> 10 <= big.digitVal c ->
  big.scanDigits 10 (p +:+ String c rest) acc cnt
    = (v, (cnt + String.length p)%nat, String c rest).
Proof.
  induction p as [|a p IH]; intros acc cnt v c rest H Hc.
  - injection H as <-. change ("" +:+ String c rest) with (String c rest).
    cbn [big.scanDigits]. destruct (Z.ltb_spec (big.digitVal c) 10); [lia|].
    now rewrite Nat.add_0_r.
  - rewrite app_cons. cbn [big.scanDigits]. simpl in H.
    destruct (GoStrings.between 48 57 a) eqn:Ed; [|discriminate].
    apply decDigit_digitVal in Ed as [-> Hd].
    apply Z.ltb_lt in Hd. rewrite Hd.
    rewrite (IH _ (S cnt) _ _ _ H Hc). simpl. now rewrite Nat.add_succ_r.
Qed.

Lemma resultInt_digit_prefix p n c rest :
  Spec.decimalValue p = Some n -> 10 <= big.digitVal c ->
  GoStrings.HasPrefix (p +:+ String c rest) "0x" = false ->
  resultInt (p +:+ String c rest) = n.
Proof.
  intros Hp Hc Hx. unfold resultInt. rewrite Hx.
  destruct p as [|a p]; [discriminate|]. unfold Spec.decimalValue in Hp.
  rewrite app_cons. unfold big.SetString. rewrite <- app_cons.
  rewrite app_cons at 1. rewrite scanSign_digit.
  2:{ simpl in Hp. unfold Spec.hexDigit.
      destruct (GoStrings.between 48 57 a); [eauto|discriminate]. }
  rewrite <- app_cons.
  rewrite (scanDigits_prefix _ _ 0%nat _ _ _ Hp Hc). reflexivity.
Qed.

(** X4: in base 10 the digits before the first byte that is no decimal
    digit are the integer, and what follows is ignored.  The second case
    of the repository's [TestResultToFloat64WithDecimals], ["3b9aca00"]
    at scale 6, is read as 3 and does not give the 1000.0 that the test
    expects. *)
Theorem resultToFloat64WithDecimals_digit_prefix p n c rest d :
  Spec.decimalValue p = Some n -> 10 <= big.digitVal c ->
  GoStrings.HasPrefix (p +:+ String c rest) "0x" = false ->
  resultToFloat64WithDecimals (p +:+ String c rest) d = quoFloat64 n (math.Pow10 d).
Proof.
  intros Hp Hc Hx. rewrite resultToFloat64WithDecimals_resultInt.
  now rewrite (resultInt_digit_prefix _ _ _ _ Hp Hc Hx).
Qed.

Lemma resultToFloat64WithDecimals_digit_prefix_witness :
  resultToFloat64WithDecimals "3b9aca00" 6 = quoFloat64 3 (math.Pow10 6)
  /\ quoFloat64 3 (math.Pow10 6) <> Some (binary_normalize 53 1024 1000 0 false).
Proof.
  split.
  - apply (resultToFloat64WithDecimals_digit_prefix "3" 3 "b" "9aca00" 6).
    + reflexivity.
    + vm_compute. discriminate.
    + reflexivity.
  - vm_compute. discriminate.
Defined.

Lemma SetString_signed s n base :
  (base = 10 /\ Spec.decimalValue s = Some n) \/ (base = 16 /\ Spec.hexValue s = Some n) ->
  big.SetString ("-" +:+ s) base = (- n, true)
  /\ big.SetString ("+" +:+ s) base = (n, true).
Proof.
  intros H.
  assert (Hs : exists cnt, big.scanDigits base s 0 0%nat = (n, S cnt, "")).
  { destruct s as [|a s]; [destruct H as [[_ H]|[_ H]]; discriminate|].
    exists (String.length s).
    destruct H as [[-> H]|[-> H]].
    - rewrite (scanDigits_decimal _ 0 0%nat n H). reflexivity.
    - rewrite (scanDigits_hex _ 0 0%nat n H). reflexivity. }
  destruct Hs as [cnt Hs].
  split; unfold big.SetString; rewrite app_cons; cbn [big.scanSign Ascii.eqb Bool.eqb];
    change ("" +:+ s) with s; rewrite Hs; reflexivity.
Qed.

(** X5: a sign is accepted, in base 10 and, after the prefix [0x], in
    base 16: the integer is negated. *)
Theorem resultToFloat64WithDecimals_signed d :
  (forall s n, Spec.decimalValue s = Some n ->
     resultToFloat64WithDecimals ("-" +:+ s) d = quoFloat64 (- n) (math.Pow10 d))
  /\ (forall h n, Spec.hexValue h = Some n ->
     resultToFloat64WithDecimals ("0x-" +:+ h) d = quoFloat64 (- n) (math.Pow10 d)).
Proof.
  split.
  - intros s n H. unfold resultToFloat64WithDecimals.
    change (GoStrings.HasPrefix ("-" +:+ s) "0x") with false. cbv iota.
    now rewrite (proj1 (SetString_signed s n 10 (or_introl (conj eq_refl H)))).
  - intros h n H. unfold resultToFloat64WithDecimals.
    change (GoStrings.HasPrefix ("0x-" +:+ h) "0x") with true.
    change (GoStrings.TrimPrefix ("0x-" +:+ h) "0x") with ("-" +:+ h). cbv iota.
    now rewrite (proj1 (SetString_signed h n 16 (or_intror (conj eq_refl H)))).
Qed.

Lemma resultToFloat64WithDecimals_signed_witness :
  resultToFloat64WithDecimals "-5" 0 = quoFloat64 (- 5) (math.Pow10 0)
  /\ resultToFloat64WithDecimals "0x-ff" 0 = quoFloat64 (- 255) (math.Pow10 0).
Proof.
  split.
  - apply (proj1 (resultToFloat64WithDecimals_signed 0) "5" 5). reflexivity.
  - apply (proj2 (resultToFloat64WithDecimals_signed 0) "ff" 255). reflexivity.
Defined.

(** ** Parameter coercion: shape of the result *)

Lemma Split_length s sep :
  length (GoStrings.Split s sep) = S (countByte sep s).
Proof.
  induction s as [|c r IH]; simpl; [reflexivity|].
  destruct (Ascii.eqb c sep); simpl; [now rewrite IH|].
  destruct (GoStrings.Split r sep); simpl in *; [discriminate|exact IH].
Qed.

(** X6: [stringsToSlice] yields no value for the empty input and
    otherwise one value more than the input has commas. *)
Theorem stringsToSlice_length s :
  length (stringsToSlice s)
  = match s with EmptyString => 0%nat | _ => S (countByte "," s) end.
Proof.
  unfold stringsToSlice. destruct s as [|c r]; [reflexivity|].
  simpl String.eqb. cbv iota. rewrite length_map. apply Split_length.
Qed.

Lemma coercePart_VInt part z :
  coercePart part = VInt z -> - 2 ^ 63 <= z < 2 ^ 63.
Proof.
  rewrite coercePart_classify. unfold Spec.classify.
  destruct (Spec.intLiteral _) as [n|] eqn:E.
  - intros [= ->]. unfold Spec.intLiteral in E.
    destruct (GoStrings.TrimSpace part) as [|c r]; [discriminate|].
    destruct (Spec.decimalValue _); [|discriminate]. simpl in E.
    destruct (andb _ _) eqn:Er; [|discriminate]. injection E as <-.
    apply andb_true_iff in Er as [H1 H2].
    apply Z.leb_le in H1. apply Z.ltb_lt in H2. lia.
  - destruct (strconv.ParseBool _); discriminate.
Qed.

(** X7: every integer that [stringsToSlice] yields is an [int64]. *)
Theorem stringsToSlice_integers_fit_int64 s z :
  In (VInt z) (stringsToSlice s) -> - 2 ^ 63 <= z < 2 ^ 63.
Proof.
  unfold stringsToSlice. destruct (String.eqb s ""); [intros []|].
  intros H. apply in_map_iff in H as (part & H & _).
  eapply coercePart_VInt, H.
Qed.

Lemma stringsToSlice_integers_fit_int64_witness :
  In (VInt 9223372036854775807) (stringsToSlice "true, 9223372036854775807")
  /\ - 2 ^ 63 <= 9223372036854775807 < 2 ^ 63.
Proof.
  assert (H : In (VInt 9223372036854775807)
                (stringsToSlice "true, 9223372036854775807"))
    by (right; left; reflexivity).
  split; [exact H|].
  exact (stringsToSlice_integers_fit_int64 "true, 9223372036854775807" _ H).
Defined.

Lemma coercePart_hex part :
  GoStrings.HasPrefix (GoStrings.TrimSpace part) "0x" = true ->
  coercePart part = VString (GoStrings.TrimSpace part).
Proof.
  unfold coercePart. destruct (GoStrings.TrimSpace part) as [|c1 [|c2 r]];
    cbn [GoStrings.HasPrefix]; try discriminate.
  { rewrite andb_false_r. discriminate. }
  intros H. apply andb_true_iff in H as [H1 H2].
  apply andb_true_iff in H2 as [H2 _].
  apply Ascii.eqb_eq in H1, H2. subst c1 c2. reflexivity.
Qed.

(** X8: a part that, once trimmed, begins with [0x] is passed on as a
    string, whatever follows the prefix. *)
Theorem stringsToSlice_hex_stays_a_string s part :
  In part (GoStrings.Split s ",") ->
  GoStrings.HasPrefix (GoStrings.TrimSpace part) "0x" = true ->
  In (VString (GoStrings.TrimSpace part)) (stringsToSlice s).
Proof.
  intros Hin Hx. unfold stringsToSlice.
  destruct s as [|c r].
  - simpl in Hin. destruct Hin as [<-|[]]. discriminate Hx.
  - simpl String.eqb. cbv iota. rewrite <- (coercePart_hex _ Hx).
    now apply in_map.
Qed.

Lemma stringsToSlice_hex_stays_a_string_witness :
  In (VString "0x10") (stringsToSlice "latest, 0x10 ,7").
Proof.
  apply (stringsToSlice_hex_stays_a_string "latest, 0x10 ,7" " 0x10 ").
  - right. left. reflexivity.
  - reflexivity.
Defined.

(** *** White space *)

Section Trimmed.

Import GoStrings.

Lemma TrimLeftSpace_start_aux n : forall s,
  (String.length s <= n)%nat -> startsWithSpace (TrimLeftSpace s) = false.
Proof.
  induction n as [|n IH]; intros s Hn.
  - destruct s; [reflexivity|simpl in Hn; lia].
  - destruct s as [|c1 r1]; [reflexivity|]. simpl in Hn. cbn [TrimLeftSpace].
    destruct (asciiSpace c1) eqn:E1; [apply IH; lia|].
    destruct r1 as [|c2 r2]; [simpl; exact E1|]. simpl in Hn.
    destruct (space2 c1 c2); [apply IH; lia|].
    destruct r2 as [|c3 r3]; [simpl; exact E1|]. simpl in Hn.
    destruct (space3 c1 c2 c3); [apply IH; lia|]. simpl. exact E1.
Qed.

Lemma TrimLeftSpaceRev_start_aux n : forall s,
  (String.length s <= n)%nat -> startsWithSpace (TrimLeftSpaceRev s) = false.
Proof.
  induction n as [|n IH]; intros s Hn.
  - destruct s; [reflexivity|simpl in Hn; lia].
  - destruct s as [|c1 r1]; [reflexivity|]. simpl in Hn. cbn [TrimLeftSpaceRev].
    destruct (asciiSpace c1) eqn:E1; [apply IH; lia|].
    destruct r1 as [|c2 r2]; [simpl; exact E1|]. simpl in Hn.
    destruct (space2 c2 c1); [apply IH; lia|].
    destruct r2 as [|c3 r3]; [simpl; exact E1|]. simpl in Hn.
    destruct (space3 c3 c2 c1); [apply IH; lia|]. simpl. exact E1.
Qed.

(** The scan from the back keeps a suffix. *)
Lemma TrimLeftSpaceRev_suffix_aux n : forall s,
  (String.length s <= n)%nat -> exists pre, s = pre +:+ TrimLeftSpaceRev s.
Proof.
  induction n as [|n IH]; intros s Hn.
  - destruct s; [exists ""; reflexivity|simpl in Hn; lia].
  - destruct s as [|c1 r1]; [exists ""; reflexivity|]. simpl in Hn.
    cbn [TrimLeftSpaceRev].
    destruct (asciiSpace c1).
    { destruct (IH r1) as [pre Hpre]; [lia|].
      exists (String c1 pre). rewrite Hpre at 1. reflexivity. }
    destruct r1 as [|c2 r2]; [exists ""; reflexivity|]. simpl in Hn.
    destruct (space2 c2 c1).
    { destruct (IH r2) as [pre Hpre]; [lia|].
      exists (String c1 (String c2 pre)). rewrite Hpre at 1. reflexivity. }
    destruct r2 as [|c3 r3]; [exists ""; reflexivity|]. simpl in Hn.
    destruct (space3 c3 c2 c1); [|exists ""; reflexivity].
    destruct (IH r3) as [pre Hpre]; [lia|].
    exists (String c1 (String c2 (String c3 pre))). rewrite Hpre at 1. reflexivity.
Qed.

Lemma revOnto_app s : forall acc, revOnto s acc = rev s +:+ acc.
Proof.
  unfold rev. induction s as [|c r IH]; intros acc; simpl; [reflexivity|].
  rewrite IH, (IH (String c "")). 
  generalize (revOnto r ""). intros x. induction x as [|a x IHx]; [reflexivity|].
  change (String a x +:+ String c acc = (String a x +:+ String c "") +:+ acc).
  change (String a (x +:+ String c acc) = String a ((x +:+ String c "") +:+ acc)).
  now rewrite IHx.
Qed.

Lemma app_assoc' (a b c : string) : (a +:+ b) +:+ c = a +:+ (b +:+ c).
Proof.
  induction a as [|x a IH]; [reflexivity|].
  change (String x ((a +:+ b) +:+ c) = String x (a +:+ (b +:+ c))). now rewrite IH.
Qed.

Lemma app_empty_r (a : string) : a +:+ "" = a.
Proof.
  induction a as [|x a IH]; [reflexivity|].
  change (String x (a +:+ "") = String x a). now rewrite IH.
Qed.

Lemma rev_app a b : rev (a +:+ b) = rev b +:+ rev a.
Proof.
  induction a as [|x a IH].
  - change ("" +:+ b) with b. change (rev "") with "". now rewrite app_empty_r.
  - change (String x a +:+ b) with (String x (a +:+ b)).
    unfold rev at 1 3. cbn [revOnto]. rewrite !revOnto_app, IH. apply app_assoc'.
Qed.

Lemma rev_involutive s : rev (rev s) = s.
Proof.
  induction s as [|c r IH]; [reflexivity|].
  unfold rev at 2. cbn [revOnto]. rewrite revOnto_app, rev_app, IH. reflexivity.
Qed.

Lemma startsWithSpace_prefix a b :
  startsWithSpace (a +:+ b) = false -> startsWithSpace a = false.
Proof. destruct a; [reflexivity|exact id]. Qed.

Lemma TrimSpace_trimmed s :
  startsWithSpace (TrimSpace s) = false /\ endsWithSpace (TrimSpace s) = false.
Proof.
  unfold TrimSpace, TrimRightSpace, endsWithSpace. split.
  - assert (H : startsWithSpace (TrimLeftSpace s) = false)
      by (eapply TrimLeftSpace_start_aux; reflexivity).
    destruct (TrimLeftSpaceRev_suffix_aux _ (rev (TrimLeftSpace s)) (le_n _))
      as [pre Hpre].
    apply (f_equal rev) in Hpre. rewrite rev_involutive, rev_app in Hpre.
    rewrite Hpre in H. eapply startsWithSpace_prefix, H.
  - rewrite rev_involutive. eapply TrimLeftSpaceRev_start_aux. reflexivity.
Qed.

End Trimmed.

Lemma coercePart_VString part t :
  coercePart part = VString t -> t = GoStrings.TrimSpace part.
Proof.
  unfold coercePart.
  destruct (strconv.ParseInt _) as [v [e|]]; [|discriminate].
  destruct (strconv.ParseBool _); [discriminate|]. now intros [= <-].
Qed.

(** X19: no string that [stringsToSlice] yields begins or ends with a
    white-space byte of ASCII (space, tab, line feed, vertical tab, form
    feed, carriage return). *)
Theorem stringsToSlice_strings_are_trimmed s t :
  In (VString t) (stringsToSlice s) ->
  startsWithSpace t = false /\ endsWithSpace t = false.
Proof.
  unfold stringsToSlice. destruct (String.eqb s ""); [intros []|].
  intros H. apply in_map_iff in H as (part & H & _).
  apply coercePart_VString in H as ->. apply TrimSpace_trimmed.
Qed.

Lemma stringsToSlice_strings_are_trimmed_witness :
  In (VString "hello") (stringsToSlice " 10 , true , hello ")
  /\ startsWithSpace "hello" = false /\ endsWithSpace "hello" = false.
Proof.
  assert (H : In (VString "hello") (stringsToSlice " 10 , true , hello "))
    by (right; right; left; reflexivity).
  split; [exact H|].
  exact (stringsToSlice_strings_are_trimmed " 10 , true , hello " "hello" H).
Defined.


(** ** The prober: before the loops *)

(** X9: the target that [ProbeJSONRPC] dials and uses as the [rpc] label
    always begins with [http://] or [https://], and a target that
    already has one of the two is left as it is. *)
Theorem withScheme_has_scheme target :
  (GoStrings.HasPrefix (withScheme target) "http://"
   || GoStrings.HasPrefix (withScheme target) "https://") = true
  /\ withScheme (withScheme target) = withScheme target.
Proof.
  assert (H : (GoStrings.HasPrefix (withScheme target) "http://"
               || GoStrings.HasPrefix (withScheme target) "https://") = true).
  { unfold withScheme.
    destruct (GoStrings.HasPrefix target "http://") eqn:E1; cbn [negb andb];
      [now rewrite E1|].
    destruct (GoStrings.HasPrefix target "https://") eqn:E2; cbn [negb andb].
    - now rewrite E2, orb_true_r.
    - reflexivity. }
  split; [exact H|].
  unfold withScheme at 1.
  apply orb_true_iff in H as [-> | ->]; cbn [negb andb]; [reflexivity|].
  now rewrite andb_false_r.
Qed.

(** X10: when [ethclient.Dial] fails, both revisions return [false],
    before the columns are looked at: nothing is registered and nothing
    is sent. *)
Theorem dial_failure_fails_the_probe libs ep target params reg :
  ethclient_Dial libs (withScheme target) = false ->
  Rev1.ProbeJSONRPC libs ep target params reg
    = (Returned false, {| registry := reg; wire := [] |})
  /\ Rev2.ProbeJSONRPC libs ep target params reg
    = (Returned false, {| registry := reg; wire := [] |}).
Proof.
  intros H.
  unfold Rev1.ProbeJSONRPC, Rev2.ProbeJSONRPC, Rev1.body, Rev2.body, run.
  unfold_prober. rewrite H. split; reflexivity.
Qed.

Lemma dial_failure_fails_the_probe_witness :
  let libs := {| ethclient_Dial := fun _ => false;
                 jmespath_Search := Mock.Search;
                 json_Marshal := Mock.Marshal;
                 fmt_float64 := fun _ => "<float>";
                 parseJSONRPCParams := Spec.parseJSONRPCParams |} in
  let params := Mock.query [("method", ["eth_blockNumber"]); ("arg", [""]);
                            ("decimal", ["0"]); ("tag", ["BlockNumber"]);
                            ("resultJMESPath", [""]); ("module", ["jsonrpc"])] in
  Rev1.ProbeJSONRPC libs (cannedEndpoint (JString "0x1234")) "rpc.example" params ∅
    = (Returned false, {| registry := ∅; wire := [] |})
  /\ Rev2.ProbeJSONRPC libs (cannedEndpoint (JString "0x1234")) "rpc.example" params ∅
    = (Returned false, {| registry := ∅; wire := [] |}).
Proof.
  intros libs params.
  apply (dial_failure_fails_the_probe libs). reflexivity.
Defined.



(** ** The prober: what a probe changes *)

Section Preserves.

Variable R : World -> World -> Prop.
Hypothesis R_refl : forall w, R w w.
Hypothesis R_trans : forall w1 w2 w3, R w1 w2 -> R w2 w3 -> R w1 w3.

Lemma preserves_bind {A B} (c : prober A) (k : A -> prober B) :
  preserves R c -> (forall a, preserves R (k a)) -> preserves R (c ≫= k).
Proof.
  intros Hc Hk w s w'. unfold_prober.
  destruct (c w) as [[a|b|] w0] eqn:E; intros H.
  - eapply R_trans; [eapply Hc, E|eapply Hk, H].
  - injection H as <- <-. eapply Hc, E.
  - injection H as <- <-. eapply Hc, E.
Qed.

Lemma preserves_const {A} (s : step A) : preserves R (fun w => (s, w)).
Proof. intros w s' w' [= _ <-]. apply R_refl. Qed.

Lemma preserves_mret {A} (a : A) : preserves R (mret a).
Proof. apply (preserves_const (Next a)). Qed.

Lemma preserves_ret {A} b : preserves R (@ret A b).
Proof. apply (preserves_const (Return b)). Qed.

Lemma preserves_index l i : preserves R (index l i).
Proof. unfold index. destruct (l !! i); apply preserves_const. Qed.

Lemma preserves_orFail {A} (r : option A) : preserves R (orFail r).
Proof. destruct r; apply preserves_const. Qed.

Lemma preserves_search libs expr data : preserves R (search libs expr data).
Proof. unfold search. destruct (jmespath_Search _ _ _); apply preserves_const. Qed.

Lemma preserves_checkColumns a b c d e : preserves R (checkColumns a b c d e).
Proof.
  unfold checkColumns.
  repeat (match goal with |- preserves R (if ?x then _ else _) => destruct x end);
    apply preserves_const.
Qed.

Lemma preserves_forRange {A} (body : nat -> A -> prober unit) l :
  (forall i x, preserves R (body i x)) -> forall i, preserves R (forRange body i l).
Proof.
  intros Hb. induction l as [|x l IH]; intros i; simpl.
  - apply preserves_const.
  - apply preserves_bind; [apply Hb|intros _; apply IH].
Qed.

Hypothesis R_MustRegister : preserves R (MustRegister "probe_jsonrpc").
Hypothesis R_gaugeSet : forall lvs v, preserves R (gaugeSet "probe_jsonrpc" lvs v).
Hypothesis R_call : forall ep m args, preserves R (call ep m args).
Hypothesis R_batchCall : forall ep elems, preserves R (batchCall ep elems).

Ltac pres :=
  repeat first
    [ apply preserves_const | apply preserves_mret | apply preserves_ret | apply preserves_index | apply preserves_orFail
    | apply preserves_search | apply preserves_checkColumns
    | apply R_MustRegister | apply R_gaugeSet | apply R_call | apply R_batchCall
    | assumption
    | apply preserves_bind; [|intros ?]
    | apply preserves_forRange; intros ? ?
    | match goal with
      | |- preserves R (if ?x then _ else _) => destruct x
      | |- preserves R (match ?x with _ => _ end) => destruct x
      end ].

Lemma preserves_Rev1_setGauge params target i r d :
  preserves R (Rev1.setGauge params target i r d).
Proof. unfold Rev1.setGauge. cbv zeta. pres. Qed.

Lemma preserves_Rev2_setGauge params target i r d :
  preserves R (Rev2.setGauge params target i r d).
Proof. unfold Rev2.setGauge. cbv zeta. pres. Qed.

Lemma preserves_Rev2_resultString libs p rawMsg :
  preserves R (Rev2.resultString libs p rawMsg).
Proof. unfold Rev2.resultString, Rev2.unmarshalString. pres. Qed.

Lemma preserves_Rev1_buildBatch params ms : forall i,
  preserves R (Rev1.buildBatch params i ms).
Proof. induction ms; intros; cbn [Rev1.buildBatch]; pres; apply IHms. Qed.

Lemma preserves_Rev2_buildBatch libs params ms : forall i,
  preserves R (Rev2.buildBatch libs params i ms).
Proof. induction ms; intros; cbn [Rev2.buildBatch]; pres; apply IHms. Qed.

Lemma preserves_Rev1_batchBody libs params target results i e :
  preserves R (Rev1.batchBody libs params target results i e).
Proof.
  unfold Rev1.batchBody. cbv zeta. pres; apply preserves_Rev1_setGauge.
Qed.

Lemma preserves_Rev2_batchBody libs params target results i e :
  preserves R (Rev2.batchBody libs params target results i e).
Proof.
  unfold Rev2.batchBody. cbv zeta.
  pres; first [apply preserves_Rev2_resultString|apply preserves_Rev2_setGauge].
Qed.

Lemma preserves_Rev1_callBody libs ep params target i m :
  preserves R (Rev1.callBody libs ep params target i m).
Proof.
  unfold Rev1.callBody. cbv zeta. pres; apply preserves_Rev1_setGauge.
Qed.

Lemma preserves_Rev2_callBody libs ep params target i m :
  preserves R (Rev2.callBody libs ep params target i m).
Proof.
  unfold Rev2.callBody. cbv zeta.
  pres; first [apply preserves_Rev2_resultString|apply preserves_Rev2_setGauge].
Qed.

Lemma preserves_Rev1_body libs ep target params :
  preserves R (Rev1.body libs ep target params).
Proof.
  unfold Rev1.body. cbv zeta.
  pres; first [apply preserves_Rev1_setGauge|apply preserves_Rev1_buildBatch].
Qed.

Lemma preserves_Rev2_body libs ep target params :
  preserves R (Rev2.body libs ep target params).
Proof.
  unfold Rev2.body. cbv zeta.
  pres; first [apply preserves_Rev2_setGauge|apply preserves_Rev2_buildBatch
              |apply preserves_Rev2_resultString].
Qed.

End Preserves.

Lemma run_preserves R body reg :
  preserves R body ->
  R {| registry := reg; wire := [] |} (snd (run body reg)).
Proof.
  intros H. unfold run.
  destruct (body _) as [[u|b|] w] eqn:E; simpl; eapply H, E.
Qed.

(** Every metric but [probe_jsonrpc] is left alone by each step. *)
Lemma sameOthers_refl w : sameOthers w w.
Proof. intros name _. reflexivity. Qed.

Lemma sameOthers_trans w1 w2 w3 : sameOthers w1 w2 -> sameOthers w2 w3 -> sameOthers w1 w3.
Proof. intros H1 H2 name Hn. now rewrite H2, H1. Qed.

Lemma sameOthers_MustRegister : preserves sameOthers (MustRegister "probe_jsonrpc").
Proof.
  intros w s w'. unfold MustRegister.
  destruct (registry w !! _) eqn:E; intros [= _ <-]; intros n Hn; simpl; [reflexivity|].
  now rewrite lookup_insert_ne.
Qed.

Lemma sameOthers_gaugeSet lvs v : preserves sameOthers (gaugeSet "probe_jsonrpc" lvs v).
Proof.
  intros w s w'. unfold gaugeSet.
  destruct (forallb _ _); intros [= _ <-]; intros n Hn; simpl; [|reflexivity].
  now rewrite lookup_insert_ne.
Qed.

Lemma sameOthers_call ep m args : preserves sameOthers (call ep m args).
Proof.
  intros w s w'. unfold call.
  destruct (Call ep m args); intros [= _ <-]; intros n Hn; reflexivity.
Qed.

Lemma sameOthers_batchCall ep elems : preserves sameOthers (batchCall ep elems).
Proof.
  intros w s w'. unfold batchCall.
  destruct (BatchCall ep elems); intros [= _ <-]; intros n Hn; reflexivity.
Qed.

(** X12: whatever its input and however it ends, a probe leaves every
    metric of the registry other than [probe_jsonrpc] as it was. *)
Theorem ProbeJSONRPC_touches_one_metric libs ep target params reg name :
  name <> "probe_jsonrpc" ->
  registry (snd (Rev1.ProbeJSONRPC libs ep target params reg)) !! name = reg !! name
  /\ registry (snd (Rev2.ProbeJSONRPC libs ep target params reg)) !! name = reg !! name.
Proof.
  intros Hn. split.
  - exact (run_preserves sameOthers _ reg
             (preserves_Rev1_body sameOthers sameOthers_refl sameOthers_trans
                sameOthers_MustRegister sameOthers_gaugeSet sameOthers_call
                sameOthers_batchCall libs ep target params) name Hn).
  - exact (run_preserves sameOthers _ reg
             (preserves_Rev2_body sameOthers sameOthers_refl sameOthers_trans
                sameOthers_MustRegister sameOthers_gaugeSet sameOthers_call
                sameOthers_batchCall libs ep target params) name Hn).
Qed.

Lemma ProbeJSONRPC_touches_one_metric_witness :
  let params := Mock.query [("method", ["eth_blockNumber"]); ("arg", [""]);
                            ("decimal", ["0"]); ("tag", ["BlockNumber"]);
                            ("resultJMESPath", [""]); ("module", ["jsonrpc"])] in
  let reg : Registry := {[ "probe_success" := {[ [] := S754_zero false ]} ]} in
  let ep := cannedEndpoint (JString "0x1234") in
  registry (snd (Rev1.ProbeJSONRPC Mock.libs ep "rpc.example" params reg)) !! "probe_success"
    = reg !! "probe_success"
  /\ registry (snd (Rev2.ProbeJSONRPC Mock.libs ep "rpc.example" params reg)) !! "probe_success"
    = reg !! "probe_success".
Proof.
  intros params reg ep.
  apply (ProbeJSONRPC_touches_one_metric Mock.libs ep "rpc.example" params reg).
  discriminate.
Defined.

(** ** The prober: the requests sent *)

Lemma bind_Next {A B} (c : prober A) (k : A -> prober B) w b w' :
  (c ≫= k) w = (Next b, w') ->
  exists a w1, c w = (Next a, w1) /\ k a w1 = (Next b, w').
Proof.
  unfold_prober. destruct (c w) as [[a|r|] w1]; try discriminate. eauto.
Qed.

Lemma sameWire_refl w : sameWire w w.
Proof. reflexivity. Qed.

Lemma sameWire_trans w1 w2 w3 : sameWire w1 w2 -> sameWire w2 w3 -> sameWire w1 w3.
Proof. unfold sameWire. congruence. Qed.

Lemma sameWire_MustRegister : preserves sameWire (MustRegister "probe_jsonrpc").
Proof.
  intros w s w'. unfold MustRegister.
  destruct (registry w !! _); intros [= _ <-]; reflexivity.
Qed.

Lemma sameWire_gaugeSet lvs v : preserves sameWire (gaugeSet "probe_jsonrpc" lvs v).
Proof.
  intros w s w'. unfold gaugeSet.
  destruct (forallb _ _); intros [= _ <-]; reflexivity.
Qed.

Ltac wire_rel :=
  first [exact sameWire_refl | exact sameWire_trans
        | exact sameWire_MustRegister | exact sameWire_gaugeSet].
Ltac same_wire lem := apply (lem sameWire); wire_rel.

Lemma Rev1_buildBatch_methods params ms : forall i w batch w',
  Rev1.buildBatch params i ms w = (Next batch, w') -> map fst batch = ms.
Proof.
  induction ms as [|m ms IH]; intros i w batch w'; simpl.
  - intros [= <- _]. reflexivity.
  - unfold index. unfold_prober.
    destruct (_ !! i); [|discriminate].
    destruct (Rev1.buildBatch params (S i) ms w) as [[rest| |] w0] eqn:E; try discriminate.
    intros [= <- _]. simpl. f_equal. eapply IH. eassumption.
Qed.

Lemma Rev2_buildBatch_methods libs params ms : forall i w batch w',
  Rev2.buildBatch libs params i ms w = (Next batch, w') -> map fst batch = ms.
Proof.
  induction ms as [|m ms IH]; intros i w batch w'; simpl.
  - intros [= <- _]. reflexivity.
  - unfold index, orFail. unfold_prober.
    destruct (_ !! i); [|discriminate].
    destruct (parseJSONRPCParams libs _); [|discriminate].
    destruct (Rev2.buildBatch libs params (S i) ms w) as [[rest| |] w0] eqn:E; try discriminate.
    intros [= <- _]. simpl. f_equal. eapply IH. eassumption.
Qed.

(** The batch branch, from the world [w] on. *)
Lemma batch_branch_wire (build : prober (list (string * list value)))
  (loop : list (option json) -> list (string * list value) -> prober unit)
  ep ms w s w' :
  preserves sameWire build ->
  (forall w0 batch w1, build w0 = (Next batch, w1) -> map fst batch = ms) ->
  (forall results batch, preserves sameWire (loop results batch)) ->
  (batch ← build; results ← batchCall ep batch; loop results batch) w = (s, w') ->
  (wire w' = wire w /\ forall u, s <> Next u)
  \/ exists batch, wire w' = (wire w ++ [Batch batch])%list /\ map fst batch = ms.
Proof.
  intros Hb Hm Hl. unfold_prober.
  destruct (build w) as [[batch|b|] w1] eqn:E1.
  2,3: intros [= <- <-]; left; split; [exact (Hb _ _ _ E1)|discriminate].
  pose proof (Hb _ _ _ E1) as Hw1. pose proof (Hm _ _ _ E1) as Hms.
  unfold batchCall. destruct (BatchCall ep batch) as [results|].
  - intros H. apply Hl in H. right. exists batch. split; [|exact Hms].
    unfold sameWire in *. simpl in H. now rewrite H, Hw1.
  - intros [= <- <-]. right. exists batch. split; [|exact Hms].
    unfold sameWire in Hw1. simpl. now rewrite Hw1.
Qed.

(** What both revisions do before and around the branch on
    [disableBatch]. *)
Lemma around_the_branch libs target params (branch : prober unit) reg s w' :
  ((if ethclient_Dial libs (withScheme target) then mret tt else ret false);;
   checkColumns (values params "method") (values params "arg")
     (values params "decimal") (values params "tag")
     (values params "resultJMESPath");;
   if String.eqb (Get params "module") "jsonrpc"
   then MustRegister "probe_jsonrpc";; branch
   else mret tt) {| registry := reg; wire := [] |} = (s, w') ->
  (wire w' = [] /\ (Get params "module" = "jsonrpc" -> forall u, s <> Next u))
  \/ exists w2, wire w2 = [] /\ branch w2 = (s, w').
Proof.
  unfold_prober.
  destruct (ethclient_Dial libs (withScheme target)).
  2:{ intros [= <- <-]. left. split; [reflexivity|discriminate]. }
  set (w0 := {| registry := reg; wire := [] |}).
  destruct (checkColumns _ _ _ _ _ w0) as [[[]|b|] w1] eqn:E.
  2,3: intros [= <- <-]; left; split; [|discriminate];
       eapply (preserves_checkColumns sameWire sameWire_refl) in E; exact E.
  apply checkColumns_Next in E as [_ ->].
  destruct (String.eqb_spec (Get params "module") "jsonrpc") as [Hm|Hm].
  2:{ intros [= <- <-]. left. split; [reflexivity|contradiction]. }
  destruct (MustRegister "probe_jsonrpc" w0) as [[[]|b|] w1] eqn:E.
  2,3: intros [= <- <-]; left; split; [|discriminate];
       apply sameWire_MustRegister in E; exact E.
  apply sameWire_MustRegister in E. intros H. right. exists w1. split; [exact E|exact H].
Qed.

Lemma run_outcome body reg :
  failsOnly body ->
  exists s w', body {| registry := reg; wire := [] |} = (s, w')
    /\ snd (run body reg) = w'
    /\ (fst (run body reg) = Returned true -> exists u, s = Next u).
Proof.
  intros Hf. unfold run.
  destruct (body _) as [[u|b|] w] eqn:E; simpl; eexists _, _;
    (split; [reflexivity|split; [reflexivity|]]); intros H; try discriminate.
  - eauto.
  - apply Hf in E as ->. discriminate.
Qed.

(** X13: with batching, a probe sends nothing or exactly one request, a
    batch with one element for each method, in the order of the [method]
    column; a probe of the [jsonrpc] module that returns [true] has sent
    it. *)
Theorem batch_mode_sends_one_batch libs ep target params reg :
  Get params "disableBatch" <> "true" ->
  forall r,
    r = Rev1.ProbeJSONRPC libs ep target params reg
    \/ r = Rev2.ProbeJSONRPC libs ep target params reg ->
    (wire (snd r) = []
     /\ (fst r = Returned true -> Get params "module" <> "jsonrpc"))
    \/ exists batch, wire (snd r) = [Batch batch]
                     /\ map fst batch = values params "method".
Proof.
  intros Hb r Hr. apply String.eqb_neq in Hb.
  destruct Hr as [-> | ->].
  - unfold Rev1.ProbeJSONRPC.
    destruct (run_outcome _ reg (Rev1_failsOnly libs ep target params))
      as (s & w' & Hbody & -> & Htrue).
    unfold Rev1.body in Hbody. cbv zeta in Hbody. rewrite Hb in Hbody.
    apply around_the_branch in Hbody as [[Hw Hs] | (w2 & Hw2 & Hbranch)].
    { left. split; [exact Hw|]. intros Ht Hm. destruct (Htrue Ht) as [u ->].
      eapply Hs; eauto. }
    eapply (batch_branch_wire _ _ _ (values params "method")) in Hbranch as [[Hw Hs] | (batch & Hw & Hms)].
    + left. split; [congruence|]. intros Ht. destruct (Htrue Ht) as [u ->].
      exfalso. eapply Hs; eauto.
    + right. exists batch. rewrite Hw, Hw2. auto.
    + same_wire preserves_Rev1_buildBatch.
    + intros ? ? ?. apply Rev1_buildBatch_methods.
    + intros results batch. apply (preserves_forRange sameWire); try wire_rel.
      intros i e. same_wire preserves_Rev1_batchBody.
  - unfold Rev2.ProbeJSONRPC.
    destruct (run_outcome _ reg (Rev2_failsOnly libs ep target params))
      as (s & w' & Hbody & -> & Htrue).
    unfold Rev2.body in Hbody. cbv zeta in Hbody. rewrite Hb in Hbody.
    apply around_the_branch in Hbody as [[Hw Hs] | (w2 & Hw2 & Hbranch)].
    { left. split; [exact Hw|]. intros Ht Hm. destruct (Htrue Ht) as [u ->].
      eapply Hs; eauto. }
    eapply (batch_branch_wire _ _ _ (values params "method")) in Hbranch as [[Hw Hs] | (batch & Hw & Hms)].
    + left. split; [congruence|]. intros Ht. destruct (Htrue Ht) as [u ->].
      exfalso. eapply Hs; eauto.
    + right. exists batch. rewrite Hw, Hw2. auto.
    + same_wire preserves_Rev2_buildBatch.
    + intros ? ? ?. apply Rev2_buildBatch_methods.
    + intros results batch. apply (preserves_forRange sameWire); try wire_rel.
      intros i e. same_wire preserves_Rev2_batchBody.
Qed.

Lemma batch_mode_sends_one_batch_witness :
  let params := Mock.query [("method", ["eth_blockNumber"; "eth_getBalance"]);
                            ("arg", [""; "0xabc,latest"]);
                            ("decimal", ["0"; "18"]); ("tag", ["BlockNumber"; "Balance"]);
                            ("resultJMESPath", [""; ""]); ("module", ["jsonrpc"])] in
  let r := Rev2.ProbeJSONRPC Mock.libs (cannedEndpoint (JString "0x1234"))
             "rpc.example" params ∅ in
  (wire (snd r) = []
   /\ (fst r = Returned true -> Get params "module" <> "jsonrpc"))
  \/ exists batch, wire (snd r) = [Batch batch]
                   /\ map fst batch = values params "method".
Proof.
  intros params r.
  apply (batch_mode_sends_one_batch Mock.libs (cannedEndpoint (JString "0x1234"))
           "rpc.example" params ∅).
  - vm_compute. discriminate.
  - right. reflexivity.
Defined.

Lemma bind_run {A B} (c : prober A) (k : A -> prober B) w :
  (c ≫= k) w
  = match c w with
    | (Next a, w1) => k a w1
    | (Return b, w1) => (Return b, w1)
    | (Panicked, w1) => (Panicked, w1)
    end.
Proof. reflexivity. Qed.

Ltac wire_kept :=
  repeat first
    [ apply (preserves_index sameWire sameWire_refl)
    | apply (preserves_orFail sameWire sameWire_refl)
    | apply (preserves_search sameWire sameWire_refl)
    | apply (preserves_mret sameWire sameWire_refl)
    | same_wire preserves_Rev1_setGauge
    | same_wire preserves_Rev2_setGauge
    | same_wire preserves_Rev2_resultString
    | apply (preserves_bind sameWire sameWire_trans); [|intros ?]
    | match goal with |- preserves _ (if ?x then _ else _) => destruct x end ].

(** One turn of the loop of single calls sends the call of its method, or
    nothing when the turn ends before the call. *)
Lemma Rev1_callBody_wire libs ep params target i m w s w' :
  Rev1.callBody libs ep params target i m w = (s, w') ->
  (wire w' = wire w /\ forall u, s <> Next u)
  \/ exists args, wire w' = (wire w ++ [Single m args])%list.
Proof.
  unfold Rev1.callBody. cbv zeta. rewrite bind_run. unfold index at 1.
  destruct (values params "arg" !! i) as [a|]; cbv beta iota delta [pure panic].
  2:{ intros [= <- <-]. left. split; [reflexivity|discriminate]. }
  rewrite bind_run. unfold call at 1. destruct (Call ep m _) as [result|].
  - intros H. right. exists (stringsToSlice a).
    match type of H with ?c _ = _ => assert (Hc : preserves sameWire c) by wire_kept end.
    apply Hc in H. exact H.
  - intros [= <- <-]. right. exists (stringsToSlice a). reflexivity.
Qed.

Lemma Rev2_callBody_wire libs ep params target i m w s w' :
  Rev2.callBody libs ep params target i m w = (s, w') ->
  (wire w' = wire w /\ forall u, s <> Next u)
  \/ exists args, wire w' = (wire w ++ [Single m args])%list.
Proof.
  unfold Rev2.callBody. cbv zeta. rewrite bind_run. unfold index at 1.
  destruct (values params "arg" !! i) as [a|]; cbv beta iota delta [pure panic].
  2:{ intros [= <- <-]. left. split; [reflexivity|discriminate]. }
  rewrite bind_run. unfold orFail at 1.
  destruct (parseJSONRPCParams libs a) as [argsSlice|]; cbv beta iota delta [pure ret].
  2:{ intros [= <- <-]. left. split; [reflexivity|discriminate]. }
  rewrite bind_run. unfold call at 1. destruct (Call ep m _) as [result|].
  - intros H. right. exists argsSlice.
    match type of H with ?c _ = _ => assert (Hc : preserves sameWire c) by wire_kept end.
    apply Hc in H. exact H.
  - intros [= <- <-]. right. exists argsSlice. reflexivity.
Qed.

(** The loop of single calls sends the calls of a prefix of its methods,
    in their order, and of all of them when it gets to its end. *)
Lemma forRange_single_calls (body : nat -> string -> prober unit) :
  (forall i m w s w', body i m w = (s, w') ->
     (wire w' = wire w /\ forall u, s <> Next u)
     \/ exists args, wire w' = (wire w ++ [Single m args])%list) ->
  forall ms i w s w', forRange body i ms w = (s, w') ->
  exists k reqs,
    wire w' = (wire w ++ reqs)%list
    /\ map singleMethod reqs = map Some (take k ms)
    /\ ((exists u, s = Next u) -> map singleMethod reqs = map Some ms).
Proof.
  intros Hbody. induction ms as [|m ms IH]; intros i w s w'; simpl.
  - intros [= <- <-]. exists 0%nat, []. rewrite app_nil_r. auto.
  - rewrite bind_run. destruct (body i m w) as [s1 w1] eqn:E.
    apply Hbody in E as [[Hw Hs] | [args Hw]].
    + destruct s1 as [u|b|]; [exfalso; eapply Hs; eauto|..];
        intros [= <- <-]; exists 0%nat, []; rewrite app_nil_r;
        (split; [exact Hw|split; [reflexivity|intros [u Hu]; discriminate]]).
    + destruct s1 as [u|b|].
      * intros H. apply IH in H as (k & reqs & Hw' & Hk & Hall).
        exists (S k), (Single m args :: reqs). split; [|split].
        -- rewrite Hw', Hw, <- app_assoc. reflexivity.
        -- simpl. now rewrite Hk.
        -- intros Hu. simpl. now rewrite (Hall Hu).
      * intros [= <- <-]. exists 1%nat, [Single m args].
        split; [exact Hw|split; [reflexivity|intros [u Hu]; discriminate]].
      * intros [= <- <-]. exists 1%nat, [Single m args].
        split; [exact Hw|split; [reflexivity|intros [u Hu]; discriminate]].
Qed.

(** X14: with [disableBatch=true], a probe sends single calls only: the
    calls of the first methods of the [method] column, one each, in
    their order; a probe of the [jsonrpc] module that returns [true] has
    called every method. *)
Theorem single_mode_sends_single_calls libs ep target params reg :
  Get params "disableBatch" = "true" ->
  forall r,
    r = Rev1.ProbeJSONRPC libs ep target params reg
    \/ r = Rev2.ProbeJSONRPC libs ep target params reg ->
    (exists k, map singleMethod (wire (snd r))
               = map Some (take k (values params "method")))
    /\ (fst r = Returned true -> Get params "module" = "jsonrpc" ->
        map singleMethod (wire (snd r)) = map Some (values params "method")).
Proof.
  intros Hb r Hr.
  destruct Hr as [-> | ->].
  - unfold Rev1.ProbeJSONRPC.
    destruct (run_outcome _ reg (Rev1_failsOnly libs ep target params))
      as (s & w' & Hbody & -> & Htrue).
    unfold Rev1.body in Hbody. cbv zeta in Hbody. rewrite Hb in Hbody.
    change (String.eqb "true" "true") with true in Hbody. cbv iota in Hbody.
    apply around_the_branch in Hbody as [[Hw Hs] | (w2 & Hw2 & Hbranch)].
    { rewrite Hw. split; [exists 0%nat; reflexivity|].
      intros Ht Hm. destruct (Htrue Ht) as [u ->]. exfalso. eapply Hs; eauto. }
    apply (forRange_single_calls _ (Rev1_callBody_wire libs ep params _)) in Hbranch
      as (k & reqs & Hw & Hk & Hall).
    rewrite Hw, Hw2. simpl. split; [eauto|]. intros Ht _. apply Hall, Htrue, Ht.
  - unfold Rev2.ProbeJSONRPC.
    destruct (run_outcome _ reg (Rev2_failsOnly libs ep target params))
      as (s & w' & Hbody & -> & Htrue).
    unfold Rev2.body in Hbody. cbv zeta in Hbody. rewrite Hb in Hbody.
    change (String.eqb "true" "true") with true in Hbody. cbv iota in Hbody.
    apply around_the_branch in Hbody as [[Hw Hs] | (w2 & Hw2 & Hbranch)].
    { rewrite Hw. split; [exists 0%nat; reflexivity|].
      intros Ht Hm. destruct (Htrue Ht) as [u ->]. exfalso. eapply Hs; eauto. }
    apply (forRange_single_calls _ (Rev2_callBody_wire libs ep params _)) in Hbranch
      as (k & reqs & Hw & Hk & Hall).
    rewrite Hw, Hw2. simpl. split; [eauto|]. intros Ht _. apply Hall, Htrue, Ht.
Qed.

Lemma single_mode_sends_single_calls_witness :
  let params := Mock.query [("method", ["eth_blockNumber"; "eth_getBalance"]);
                            ("arg", [""; "0xabc,latest"]);
                            ("decimal", ["0"; "18"]); ("tag", ["BlockNumber"; "Balance"]);
                            ("resultJMESPath", [""; ""]); ("module", ["jsonrpc"]);
                            ("disableBatch", ["true"])] in
  let r := Rev2.ProbeJSONRPC Mock.libs (cannedEndpoint (JString "0x1234"))
             "rpc.example" params ∅ in
  (exists k, map singleMethod (wire (snd r))
             = map Some (take k (values params "method")))
  /\ (fst r = Returned true -> Get params "module" = "jsonrpc" ->
      map singleMethod (wire (snd r)) = map Some (values params "method")).
Proof.
  intros params r.
  apply (single_mode_sends_single_calls Mock.libs (cannedEndpoint (JString "0x1234"))
           "rpc.example" params ∅).
  - reflexivity.
  - right. reflexivity.
Defined.

(** ** The prober: the gauges of a successful probe *)

Lemma keepsGauges_refl w : keepsGauges w w.
Proof. intros lvs H. exact H. Qed.

Lemma keepsGauges_trans w1 w2 w3 :
  keepsGauges w1 w2 -> keepsGauges w2 w3 -> keepsGauges w1 w3.
Proof. intros H1 H2 lvs H. apply H2, H1, H. Qed.

Lemma keepsGauges_MustRegister : preserves keepsGauges (MustRegister "probe_jsonrpc").
Proof.
  intros w s w'. unfold MustRegister.
  destruct (registry w !! _) eqn:E; intros [= _ <-]; [apply keepsGauges_refl|].
  intros lvs (vec & v & Hvec & _). congruence.
Qed.

Lemma keepsGauges_gaugeSet lvs v : preserves keepsGauges (gaugeSet "probe_jsonrpc" lvs v).
Proof.
  intros w s w'. unfold gaugeSet.
  destruct (forallb _ _); intros [= _ <-]; [|apply keepsGauges_refl].
  intros l (vec & x & Hvec & Hx). unfold hasGauge. simpl.
  rewrite lookup_insert_eq, Hvec. simpl.
  destruct (decide (lvs = l)) as [->|Hne].
  - eexists _, v. split; [reflexivity|]. apply lookup_insert_eq.
  - eexists _, x. split; [reflexivity|]. now rewrite lookup_insert_ne.
Qed.

Lemma keepsGauges_call ep m args : preserves keepsGauges (call ep m args).
Proof.
  intros w s w'. unfold call.
  destruct (Call ep m args); intros [= _ <-]; intros ? H; exact H.
Qed.

Lemma keepsGauges_batchCall ep elems : preserves keepsGauges (batchCall ep elems).
Proof.
  intros w s w'. unfold batchCall.
  destruct (BatchCall ep elems); intros [= _ <-]; intros ? H; exact H.
Qed.

Lemma ensures_bind_r {A B} P (c : prober A) (k : A -> prober B) :
  (forall a, ensures P (k a)) -> ensures P (c ≫= k).
Proof.
  intros Hk w b w' H. apply bind_Next in H as (a & w1 & _ & H). eapply Hk, H.
Qed.

Lemma ensures_gaugeSet lvs v : ensures (hasGauge lvs) (gaugeSet "probe_jsonrpc" lvs v).
Proof.
  intros w [] w'. unfold gaugeSet.
  destruct (forallb _ _); intros [= <-]. unfold hasGauge. simpl.
  eexists _, v. split; [apply lookup_insert_eq|apply lookup_insert_eq].
Qed.

Lemma ensures_Rev1_setGauge params target i r d lvs :
  labelsAt id params target i lvs ->
  ensures (hasGauge lvs) (Rev1.setGauge params target i r d).
Proof.
  intros (m & a & t & Hm & Ha & Ht & ->). unfold Rev1.setGauge. cbv zeta.
  destruct (resultToFloat64WithDecimals r d); [|intros w u w' H; discriminate].
  unfold index. rewrite Hm, Ha, Ht. apply ensures_gaugeSet.
Qed.

Lemma ensures_Rev2_setGauge params target i r d lvs :
  labelsAt GoStrings.TrimSpace params target i lvs ->
  ensures (hasGauge lvs) (Rev2.setGauge params target i r d).
Proof.
  intros (m & a & t & Hm & Ha & Ht & ->). unfold Rev2.setGauge. cbv zeta.
  destruct (resultToFloat64WithDecimals r d); [|intros w u w' H; discriminate].
  unfold index. rewrite Hm, Ha, Ht. apply ensures_gaugeSet.
Qed.

Lemma forRange_ensures {A} (body : nat -> A -> prober unit)
  (P : nat -> World -> Prop) :
  (forall i x, preserves keepsGauges (body i x)) ->
  (forall i w w', keepsGauges w w' -> P i w -> P i w') ->
  (forall i x, ensures (P i) (body i x)) ->
  forall l i w u w', forRange body i l w = (Next u, w') ->
  forall k, (k < length l)%nat -> P (i + k)%nat w'.
Proof.
  intros Hpres Hmono Hens. induction l as [|x l IH]; intros i w u w' H k Hk;
    simpl in *; [lia|].
  apply bind_Next in H as ([] & w1 & H1 & H2).
  destruct k as [|k].
  - rewrite Nat.add_0_r. eapply Hmono; [|eapply Hens, H1].
    eapply (preserves_forRange keepsGauges keepsGauges_refl keepsGauges_trans), H2.
    exact Hpres.
  - replace (i + S k)%nat with (S i + k)%nat by lia.
    eapply IH; [exact H2|lia].
Qed.

Lemma ensures_Rev1_callBody libs ep params target i m lvs :
  labelsAt id params target i lvs ->
  ensures (hasGauge lvs) (Rev1.callBody libs ep params target i m).
Proof.
  intros Hl. unfold Rev1.callBody. cbv zeta.
  repeat (apply ensures_bind_r; intros ?). now apply ensures_Rev1_setGauge.
Qed.

Lemma ensures_Rev1_batchBody libs params target results i e lvs :
  labelsAt id params target i lvs ->
  ensures (hasGauge lvs) (Rev1.batchBody libs params target results i e).
Proof.
  intros Hl. unfold Rev1.batchBody. cbv zeta.
  repeat (apply ensures_bind_r; intros ?). now apply ensures_Rev1_setGauge.
Qed.

Lemma ensures_Rev2_callBody libs ep params target i m lvs :
  labelsAt GoStrings.TrimSpace params target i lvs ->
  ensures (hasGauge lvs) (Rev2.callBody libs ep params target i m).
Proof.
  intros Hl. unfold Rev2.callBody. cbv zeta.
  repeat (apply ensures_bind_r; intros ?). now apply ensures_Rev2_setGauge.
Qed.

Lemma ensures_Rev2_batchBody libs params target results i e lvs :
  labelsAt GoStrings.TrimSpace params target i lvs ->
  ensures (hasGauge lvs) (Rev2.batchBody libs params target results i e).
Proof.
  intros Hl. unfold Rev2.batchBody. cbv zeta.
  repeat (apply ensures_bind_r; intros ?). now apply ensures_Rev2_setGauge.
Qed.

Ltac gauges_rel :=
  first [exact keepsGauges_refl | exact keepsGauges_trans
        | exact keepsGauges_MustRegister | exact keepsGauges_gaugeSet
        | exact keepsGauges_call | exact keepsGauges_batchCall].
Ltac keeps_gauges lem := apply (lem keepsGauges); gauges_rel.

(** A loop that gets to its end has set the gauge of every position. *)
Lemma loop_sets_every_gauge {A} (body : nat -> A -> prober unit) f params target :
  (forall i x, preserves keepsGauges (body i x)) ->
  (forall i x lvs, labelsAt f params target i lvs -> ensures (hasGauge lvs) (body i x)) ->
  forall l w u w' i lvs,
    forRange body 0 l w = (Next u, w') ->
    (i < length l)%nat -> labelsAt f params target i lvs -> hasGauge lvs w'.
Proof.
  intros Hpres Hens l w u w' i lvs H Hi Hl.
  set (P := fun (j : nat) (w : World) =>
              forall lvs, labelsAt f params target j lvs -> hasGauge lvs w).
  assert (Hmono : forall j w1 w2, keepsGauges w1 w2 -> P j w1 -> P j w2).
  { intros j w1 w2 Hk HP l0 Hl0. apply Hk, HP, Hl0. }
  assert (HensP : forall j x, ensures (P j) (body j x)).
  { intros j x w1 u1 w2 Hb l0 Hl0. eapply Hens; eassumption. }
  exact (forRange_ensures body P Hpres Hmono HensP l 0%nat w u w' H i Hi lvs Hl).
Qed.

(** X15: when a probe of the [jsonrpc] module returns [true], every
    descriptor has its gauge in [probe_jsonrpc], under the labels of the
    target with its scheme, the method, the argument text and the tag;
    in the second revision the argument text is trimmed. *)
Theorem success_sets_every_gauge libs ep target params reg i m a t :
  Get params "module" = "jsonrpc" ->
  values params "method" !! i = Some m ->
  values params "arg" !! i = Some a ->
  values params "tag" !! i = Some t ->
  (fst (Rev1.ProbeJSONRPC libs ep target params reg) = Returned true ->
   hasGauge [withScheme target; m; a; t]
     (snd (Rev1.ProbeJSONRPC libs ep target params reg)))
  /\ (fst (Rev2.ProbeJSONRPC libs ep target params reg) = Returned true ->
      hasGauge [withScheme target; m; GoStrings.TrimSpace a; t]
        (snd (Rev2.ProbeJSONRPC libs ep target params reg))).
Proof.
  intros Hmod Hm Ha Ht.
  assert (Hi : (i < length (values params "method"))%nat)
    by (eapply lookup_lt_Some, Hm).
  split; intros Htrue.
  - assert (Hl : labelsAt id params (withScheme target) i [withScheme target; m; a; t])
      by (exists m, a, t; auto).
    unfold Rev1.ProbeJSONRPC in *.
    destruct (run_outcome _ reg (Rev1_failsOnly libs ep target params))
      as (s & w' & Hbody & -> & Hs).
    destruct (Hs Htrue) as [u ->].
    unfold Rev1.body in Hbody. cbv zeta in Hbody.
    apply around_the_branch in Hbody as [[_ Hno] | (w2 & _ & Hbranch)];
      [exfalso; eapply Hno; eauto|].
    destruct (String.eqb _ "true").
    + eapply (loop_sets_every_gauge _ id params); [| |exact Hbranch|exact Hi|exact Hl].
      * intros j x. keeps_gauges preserves_Rev1_callBody.
      * intros j x lvs. apply ensures_Rev1_callBody.
    + apply bind_Next in Hbranch as (batch & w3 & Hbuild & Hrest).
      apply bind_Next in Hrest as (results & w4 & _ & Hloop).
      apply Rev1_buildBatch_length in Hbuild.
      eapply (loop_sets_every_gauge _ id params); [| |exact Hloop| |exact Hl].
      * intros j x. keeps_gauges preserves_Rev1_batchBody.
      * intros j x lvs. apply ensures_Rev1_batchBody.
      * lia.
  - assert (Hl : labelsAt GoStrings.TrimSpace params (withScheme target) i
                   [withScheme target; m; GoStrings.TrimSpace a; t])
      by (exists m, a, t; auto).
    unfold Rev2.ProbeJSONRPC in *.
    destruct (run_outcome _ reg (Rev2_failsOnly libs ep target params))
      as (s & w' & Hbody & -> & Hs).
    destruct (Hs Htrue) as [u ->].
    unfold Rev2.body in Hbody. cbv zeta in Hbody.
    apply around_the_branch in Hbody as [[_ Hno] | (w2 & _ & Hbranch)];
      [exfalso; eapply Hno; eauto|].
    destruct (String.eqb _ "true").
    + eapply (loop_sets_every_gauge _ GoStrings.TrimSpace params);
        [| |exact Hbranch|exact Hi|exact Hl].
      * intros j x. keeps_gauges preserves_Rev2_callBody.
      * intros j x lvs. apply ensures_Rev2_callBody.
    + apply bind_Next in Hbranch as (batch & w3 & Hbuild & Hrest).
      apply bind_Next in Hrest as (results & w4 & _ & Hloop).
      apply Rev2_buildBatch_length in Hbuild.
      eapply (loop_sets_every_gauge _ GoStrings.TrimSpace params);
        [| |exact Hloop| |exact Hl].
      * intros j x. keeps_gauges preserves_Rev2_batchBody.
      * intros j x lvs. apply ensures_Rev2_batchBody.
      * lia.
Qed.

Lemma success_sets_every_gauge_witness :
  let params := Mock.query [("method", ["eth_blockNumber"; "eth_getBalance"]);
                            ("arg", [""; " 0xabc,latest "]);
                            ("decimal", ["0"; "18"]); ("tag", ["BlockNumber"; "Balance"]);
                            ("resultJMESPath", [""; ""]); ("module", ["jsonrpc"])] in
  let ep := cannedEndpoint (JString "0x1234") in
  (fst (Rev1.ProbeJSONRPC Mock.libs ep "rpc.example" params ∅) = Returned true ->
   hasGauge ["http://rpc.example"; "eth_getBalance"; " 0xabc,latest "; "Balance"]
     (snd (Rev1.ProbeJSONRPC Mock.libs ep "rpc.example" params ∅)))
  /\ (fst (Rev2.ProbeJSONRPC Mock.libs ep "rpc.example" params ∅) = Returned true ->
      hasGauge ["http://rpc.example"; "eth_getBalance"; "0xabc,latest"; "Balance"]
        (snd (Rev2.ProbeJSONRPC Mock.libs ep "rpc.example" params ∅))).
Proof.
  intros params ep.
  apply (success_sets_every_gauge Mock.libs ep "rpc.example" params ∅ 1%nat
           "eth_getBalance" " 0xabc,latest " "Balance"); reflexivity.
Defined.

(** ** The prober: results that read as zero *)



(** X17: in the batch of the second revision, an expression for which
    the search answers [nil] without an error does not fail the probe:
    [nil] is printed as [<nil>], read as zero, and the gauge of the
    descriptor is set to [0]. *)
Theorem Rev2_empty_selection_reads_zero
  libs params target results i e w p j d m a t :
  values params "resultJMESPath" !! i = Some p ->
  GoStrings.TrimSpace p <> "" ->
  mjoin (results !! i) = Some j ->
  jmespath_Search libs p (OfJSON j) = LOk JNull ->
  values params "decimal" !! i = Some d ->
  -323 <= fst (strconv.ParseInt d) ->
  values params "method" !! i = Some m ->
  values params "arg" !! i = Some a ->
  values params "tag" !! i = Some t ->
  Rev2.batchBody libs params target results i e w
    = gaugeSet "probe_jsonrpc" [target; m; GoStrings.TrimSpace a; t]
        (S754_zero false) w.
Proof.
  intros Hp Hblank Hr Hsearch Hd Hscale Hm Ha Ht.
  unfold Rev2.batchBody, Rev2.resultString, Rev2.setGauge, index, orFail, search.
  cbv zeta. rewrite Hd, Hp, Hr. apply String.eqb_neq in Hblank.
  unfold_prober. rewrite Hblank. cbn [negb]. rewrite Hsearch.
  cbn [fmt.Sprint].
  rewrite resultToFloat64WithDecimals_resultInt.
  change (resultInt "<nil>") with 0. rewrite (zero_over_Pow10 _ Hscale).
  rewrite Hm, Ha, Ht. reflexivity.
Qed.

Lemma Rev2_empty_selection_reads_zero_witness :
  let params := Mock.query [("method", ["suix_getBalance"]); ("arg", [" 0x0 "]);
                            ("decimal", ["6"]); ("tag", ["WalletZero"]);
                            ("resultJMESPath", ["totalBalance"]); ("module", ["jsonrpc"])] in
  let w := {| registry := {[ "probe_jsonrpc" := ∅ ]}; wire := [] |} in
  Rev2.batchBody Mock.libs params "http://rpc.example"
    [Some (JObject [("coinType", JString "0x2::sui::SUI")])] 0 ("suix_getBalance", []) w
  = gaugeSet "probe_jsonrpc" ["http://rpc.example"; "suix_getBalance"; "0x0"; "WalletZero"]
      (S754_zero false) w.
Proof.
  intros params w.
  apply (Rev2_empty_selection_reads_zero Mock.libs params "http://rpc.example"
           [Some (JObject [("coinType", JString "0x2::sui::SUI")])] 0%nat
           ("suix_getBalance", []) w "totalBalance"
           (JObject [("coinType", JString "0x2::sui::SUI")]) "6"
           "suix_getBalance" " 0x0 " "WalletZero"); try reflexivity.
  - vm_compute. discriminate.
  - vm_compute. discriminate.
Defined.

(** ** The prober: label values *)

Lemma noNext_panic {A} : noNext (@panic A).
Proof. intros w u w'. discriminate. Qed.

Lemma noNext_gaugeSet name lvs v :
  forallb utf8.ValidString lvs = false -> noNext (gaugeSet name lvs v).
Proof. intros H w u w'. unfold gaugeSet. rewrite H. discriminate. Qed.

Section InvalidLabel.

Variable params : Values.
Variable target : string.
Variable i : nat.
Variables m a t : string.
Hypothesis Hm : values params "method" !! i = Some m.
Hypothesis Ha : values params "arg" !! i = Some a.
Hypothesis Ht : values params "tag" !! i = Some t.

Lemma noNext_Rev1_setGauge r d :
  forallb utf8.ValidString [target; m; a; t] = false ->
  noNext (Rev1.setGauge params target i r d).
Proof.
  intros H. unfold Rev1.setGauge. cbv zeta.
  destruct (resultToFloat64WithDecimals r d); [|apply noNext_panic].
  repeat (eapply noNext_bind_index; [eassumption|]).
  now apply noNext_gaugeSet.
Qed.

Lemma noNext_Rev2_setGauge r d :
  forallb utf8.ValidString [target; m; GoStrings.TrimSpace a; t] = false ->
  noNext (Rev2.setGauge params target i r d).
Proof.
  intros H. unfold Rev2.setGauge. cbv zeta.
  destruct (resultToFloat64WithDecimals r d); [|apply noNext_panic].
  repeat (eapply noNext_bind_index; [eassumption|]).
  now apply noNext_gaugeSet.
Qed.

End InvalidLabel.

(** X21: the column values become label values as they are.  A probe of
    the [jsonrpc] module in which the labels of some descriptor are not
    all valid UTF-8 never returns [true]: if it gets to that descriptor,
    [WithLabelValues] panics. *)
Theorem invalid_label_never_succeeds libs ep target params reg k m a t :
  Get params "module" = "jsonrpc" ->
  values params "method" !! k = Some m ->
  values params "arg" !! k = Some a ->
  values params "tag" !! k = Some t ->
  (forallb utf8.ValidString [withScheme target; m; a; t] = false ->
   fst (Rev1.ProbeJSONRPC libs ep target params reg) <> Returned true)
  /\ (forallb utf8.ValidString [withScheme target; m; GoStrings.TrimSpace a; t] = false ->
      fst (Rev2.ProbeJSONRPC libs ep target params reg) <> Returned true).
Proof.
  intros Hmod Hm Ha Ht. split; intros Hbad.
  - apply run_not_true; [apply Rev1_failsOnly|].
    unfold Rev1.body. cbv zeta. rewrite Hmod. cbn [String.eqb Ascii.eqb Bool.eqb].
    apply noNext_bind_r; intros _.
    apply noNext_bind_checkColumns; intros _.
    apply noNext_bind_r; intros _.
    destruct (String.eqb _ "true").
    + eapply noNext_forRange; [exact Hm|].
      unfold Rev1.callBody. cbv zeta.
      repeat (apply noNext_bind_r; intros ?).
      eapply noNext_Rev1_setGauge; eassumption.
    + apply noNext_bind_Rev1_buildBatch; intros batch Hb.
      apply noNext_bind_r; intros results.
      destruct (lookup_same_length _ batch _ _ Hm) as [e He]; [lia|].
      eapply noNext_forRange; [exact He|].
      unfold Rev1.batchBody. cbv zeta.
      repeat (apply noNext_bind_r; intros ?).
      eapply noNext_Rev1_setGauge; eassumption.
  - apply run_not_true; [apply Rev2_failsOnly|].
    unfold Rev2.body. cbv zeta. rewrite Hmod. cbn [String.eqb Ascii.eqb Bool.eqb].
    apply noNext_bind_r; intros _.
    apply noNext_bind_checkColumns; intros _.
    apply noNext_bind_r; intros _.
    destruct (String.eqb _ "true").
    + eapply noNext_forRange; [exact Hm|].
      unfold Rev2.callBody. cbv zeta.
      repeat (apply noNext_bind_r; intros ?).
      eapply noNext_Rev2_setGauge; eassumption.
    + apply noNext_bind_Rev2_buildBatch; intros batch Hb.
      apply noNext_bind_r; intros results.
      destruct (lookup_same_length _ batch _ _ Hm) as [e He]; [lia|].
      eapply noNext_forRange; [exact He|].
      unfold Rev2.batchBody. cbv zeta.
      repeat (apply noNext_bind_r; intros ?).
      eapply noNext_Rev2_setGauge; eassumption.
Qed.

Lemma invalid_label_never_succeeds_witness :
  let tag := String (ascii_of_nat 255) "" in
  let params := Mock.query [("method", ["eth_blockNumber"]); ("arg", [""]);
                            ("decimal", ["0"]); ("tag", [tag]);
                            ("resultJMESPath", [""]); ("module", ["jsonrpc"])] in
  let ep := cannedEndpoint (JString "0x1234") in
  fst (Rev1.ProbeJSONRPC Mock.libs ep "rpc.example" params ∅) <> Returned true
  /\ fst (Rev2.ProbeJSONRPC Mock.libs ep "rpc.example" params ∅) <> Returned true.
Proof.
  intros tag params ep.
  destruct (invalid_label_never_succeeds Mock.libs ep "rpc.example" params ∅ 0%nat
              "eth_blockNumber" "" tag) as [H1 H2]; try reflexivity.
  split; [apply H1|apply H2]; reflexivity.
Defined.

(** ** [ProbeBTCRPC]: the host *)

Lemma TrimLeft_first s cutset :
  match BTC.TrimLeft s cutset with
  | EmptyString => True
  | String c _ => BTC.containsByte cutset c = false
  end.
Proof.
  induction s as [|c r IH]; simpl; [exact I|].
  destruct (BTC.containsByte cutset c) eqn:E; [exact IH|exact E].
Qed.

Lemma TrimLeft_length s cutset :
  (String.length (BTC.TrimLeft s cutset) <= String.length s)%nat.
Proof.
  induction s as [|c r IH]; simpl; [lia|].
  destruct (BTC.containsByte cutset c); simpl; lia.
Qed.

(** X18: [ProbeBTCRPC] removes the scheme of its target with
    [strings.TrimLeft], which takes a set of bytes and not a prefix: the
    host never begins with one of the bytes [h], [t], [p], [:] and [/],
    so that a host name that begins with one of them loses its first
    bytes. *)
Theorem BTC_host_trims_a_cutset target rest :
  target = "http://" +:+ rest \/ target = "https://" +:+ rest ->
  match BTC.host target with
  | EmptyString => True
  | String c _ => BTC.containsByte "http://" c = false
  end
  /\ (forall c r, rest = String c r -> BTC.containsByte "http://" c = true ->
        BTC.host target <> rest).
Proof.
  intros H.
  assert (Hhost : exists cutset,
             BTC.host target = BTC.TrimLeft rest cutset
             /\ forall c, BTC.containsByte "http://" c = true ->
                          BTC.containsByte cutset c = true).
  { destruct H as [-> | ->].
    - exists "http://". split; [reflexivity|auto].
    - exists "https://". split; [reflexivity|].
      intros c Hc. simpl in *.
      repeat (apply orb_true_iff in Hc as [Hc|Hc]; [rewrite Hc, ?orb_true_r; reflexivity|]).
      discriminate. }
  destruct Hhost as (cutset & -> & Hcut). split.
  - pose proof (TrimLeft_first rest cutset) as Hf.
    destruct (BTC.TrimLeft rest cutset) as [|c r]; [exact I|].
    destruct (BTC.containsByte "http://" c) eqn:E; [|reflexivity].
    apply Hcut in E. congruence.
  - intros c r -> Hc Heq. apply Hcut in Hc.
    pose proof (TrimLeft_length r cutset) as Hlen.
    simpl in Heq. rewrite Hc in Heq. rewrite Heq in Hlen. simpl in Hlen. lia.
Qed.

Lemma BTC_host_trims_a_cutset_witness :
  BTC.host "http://test.example" = "est.example"
  /\ BTC.host "http://test.example" <> "test.example".
Proof.
  split; [reflexivity|].
  apply (proj2 (BTC_host_trims_a_cutset "http://test.example" "test.example"
                  (or_introl eq_refl)) "t"%char "est.example"); reflexivity.
Defined.
